(** * hclparser: the HCL-to-JSON tree converter of [convert/convert.go]

    A shallow embedding of package [convert]: the range extractor
    ([rangeSource]), the template reconstructor ([convertTemplate],
    [convertStringPart], [convertTemplateConditional], [convertTemplateFor],
    [convertKey], [wrapExpr]), the expression converter
    ([convertExpression]), the body converter ([convertBody]), the
    block/label nester ([convertBlock]) and the drivers ([ConvertFile],
    [File]).

    Go values of type [interface{}] are embedded as the inductive [value],
    one constructor per dynamic type the package creates.  Go maps are
    [gmap string _]: a Go map has no insertion order and [encoding/json]
    writes its keys sorted, so a map is exactly its finite lookup function.
    A Go call that can return an error or panic is embedded as a function
    into [result]. *)

From Stdlib Require Import ZArith String Ascii List Permutation.
From stdpp Require Import gmap strings list fin_maps pretty.

Set Warnings "-register-all".
#[local] Arguments String.append !s1 s2 / : simpl nomatch.
Open Scope string_scope.
Open Scope list_scope.
Open Scope Z_scope.

(** ** Errors, panics and the result of a call *)

(** Run-time panics the package can raise. *)
Inductive panic :=
  | PanicTypeAssertion   (* x.(T) without comma-ok on a value that is not a T *)
  | PanicNilMap          (* assignment to entry in nil map *)
  | PanicNullAsString    (* cty.Value.AsString on a null value *)
  | PanicIndex           (* index out of range *)
  | PanicSliceBounds.    (* slice bounds out of range *)

(** Error values.  [ErrWrap ctx e] is [fmt.Errorf(ctx + ": %w", e)]. *)
Inductive error :=
  | ErrCtyConvert                      (* error of ctyconvert.Convert *)
  | ErrTemplateDiags                   (* diagnostics of TemplateExpr.Value *)
  | ErrBlockToJSON (blockType : string) (labels : list string)
      (* "Unable to convert Block to JSON: type.l1.l2" *)
  | ErrBlockLineToJSON (blockType : string) (labels : list string)
      (* "unable to convert Block to JSON: type.l1.l2" *)
  | ErrBodyType                        (* "convert file body to body type" *)
  | ErrMarshal                         (* error of json.Marshal *)
  | ErrWrap (ctx : string) (e : error).

Inductive result (A : Type) :=
  | Ok (a : A)
  | Err (e : error)
  | Panic (p : panic).
Arguments Ok {A} a.
Arguments Err {A} e.
Arguments Panic {A} p.

#[global] Instance result_ret : MRet result := fun A a => Ok a.
#[global] Instance result_bind : MBind result := fun A B f m =>
  match m with
  | Ok a => f a
  | Err e => Err e
  | Panic p => Panic p
  end.

(** [wrapErr ctx m]: [if err != nil { return fmt.Errorf(ctx + ": %w", err) }]. *)
Definition wrapErr {A} (ctx : string) (m : result A) : result A :=
  match m with
  | Err e => Err (ErrWrap ctx e)
  | _ => m
  end.

Definition isOk {A} (m : result A) : bool :=
  match m with Ok _ => true | _ => false end.

(** Sequential loops with early return. *)
Section Loops.
Context {A B S : Type}.

(** [for _, x := range l { y, err := f(x); ...; out = append(out, y) }] *)
Section CollectM.
Variable f : A -> result B.
Fixpoint collectM (l : list A) : result (list B) :=
  match l with
  | [] => Ok []
  | x :: l' => y ← f x; ys ← collectM l'; Ok (y :: ys)
  end.
End CollectM.

(** [for _, x := range l { s, err = step(s, x); ... }] *)
Section FoldM.
Variable step : S -> A -> result S.
Fixpoint foldM (l : list A) (s : S) : result S :=
  match l with
  | [] => Ok s
  | x :: l' => s' ← step s x; foldM l' s'
  end.
End FoldM.
End Loops.

(** ** cty values held by literal expressions

    The known values a [LiteralValueExpr] can hold.  Numbers are the
    integer-valued ones; [CtyList] stands for the non-primitive values
    (lists, tuples, objects), which have no conversion to [cty.String]. *)
Inductive cty :=
  | CtyString (s : string)
  | CtyNumber (n : Z)
  | CtyBool (b : bool)
  | CtyNull
  | CtyList (l : list cty).

(** [ctyconvert.Convert(v, cty.String)] followed by [AsString()].  A null
    converts to the null string without error, and [AsString] panics on
    it. *)
Definition ctyToString (v : cty) : result string :=
  match v with
  | CtyString s => Ok s
  | CtyNumber n => Ok (pretty n)
  | CtyBool b => Ok (if b then "true" else "false")
  | CtyNull => Panic PanicNullAsString
  | CtyList _ => Err ErrCtyConvert
  end.

(** [TemplateExpr.Value(nil)] of hclsyntax on a template whose parts are
    literals holding the values [vals]: a null part and a part that does
    not convert to a string each add an error diagnostic, the other parts
    are appended to the buffer; any diagnostic makes the call fail. *)
Definition templatePartValue (v : cty) : option string :=
  match v with
  | CtyString s => Some s
  | CtyNumber n => Some (pretty n)
  | CtyBool b => Some (if b then "true" else "false")
  | CtyNull => None
  | CtyList _ => None
  end.

Fixpoint templateValue (vals : list cty) : result string :=
  match vals with
  | [] => Ok EmptyString
  | v :: vals' =>
      match templatePartValue v, templateValue vals' with
      | Some s, Ok rest => Ok (s +:+ rest)
      | _, _ => Err ErrTemplateDiags
      end
  end.

(** ** Source positions (hcl.Pos, hcl.Range) *)

Record Pos := mkPos { Line : Z; Column : Z; Byte : Z }.
Record Range := mkRange { Start : Pos; End_ : Pos }.

(** ** The syntax tree (hclsyntax)

    Every expression node records the two ranges the library reports for
    it: [Range()] and [StartRange()].  (The library computes some of them
    from a node's children, a template's start range from its first part;
    the parser builds no template without parts.) *)
Record NodeRanges := mkNodeRanges { nodeRange : Range; nodeStartRange : Range }.

Inductive Expression :=
  | LiteralValueExpr (Val : cty) (r : NodeRanges)
  | TemplateExpr (Parts : list Expression) (r : NodeRanges)
  | TemplateWrapExpr (Wrapped : Expression) (r : NodeRanges)
  | TupleConsExpr (Exprs : list Expression) (r : NodeRanges)
  | ObjectConsExpr (Items : list (Expression * Expression)) (r : NodeRanges)
  | ObjectConsKeyExpr (Wrapped : Expression) (r : NodeRanges)
  | ScopeTraversalExpr (r : NodeRanges)
  | ConditionalExpr (Condition TrueResult FalseResult : Expression) (r : NodeRanges)
  | TemplateJoinExpr (Tuple : Expression) (r : NodeRanges)
  | ForExpr (KeyVar ValVar : string) (CollExpr ValExpr : Expression) (r : NodeRanges)
  | OtherExpr (r : NodeRanges).
      (* FunctionCallExpr, BinaryOpExpr, UnaryOpExpr, IndexExpr, ... *)

Definition exprRanges (e : Expression) : NodeRanges :=
  match e with
  | LiteralValueExpr _ r | TemplateExpr _ r | TemplateWrapExpr _ r
  | TupleConsExpr _ r | ObjectConsExpr _ r | ObjectConsKeyExpr _ r
  | ScopeTraversalExpr r | ConditionalExpr _ _ _ r | TemplateJoinExpr _ r
  | ForExpr _ _ _ _ r | OtherExpr r => r
  end.

(** [expr.Range()] and [expr.StartRange()]. *)
Definition ExprRange (e : Expression) : Range := nodeRange (exprRanges e).
Definition StartRange (e : Expression) : Range := nodeStartRange (exprRanges e).

Record Attribute := mkAttribute { Name : string; Expr : Expression; NameRange : Range }.

(** [Body.Attributes] is a Go map: the list gives its entries in the order
    in which one [range] statement happens to visit them; the keys of a
    map are pairwise distinct ([wfBody] below). *)
Inductive Body :=
  | mkBody (Attributes : list (string * Attribute)) (Blocks : list Block)
           (SrcRange : Range)
with Block :=
  | mkBlock (BlockType : string) (Labels : list string) (body : Body)
            (TypeRange : Range).

Definition Attributes (b : Body) := let '(mkBody a _ _) := b in a.
Definition Blocks (b : Body) := let '(mkBody _ bs _) := b in bs.
Definition SrcRange (b : Body) := let '(mkBody _ _ r) := b in r.
Definition BlockType (b : Block) := let '(mkBlock t _ _ _) := b in t.
Definition Labels (b : Block) := let '(mkBlock _ l _ _) := b in l.
Definition BlockBody (b : Block) := let '(mkBlock _ _ bd _) := b in bd.
Definition TypeRange (b : Block) := let '(mkBlock _ _ _ r) := b in r.

(** [t.IsStringLiteral()]: exactly one part, and it is a literal; the
    literal's value is handed on. *)
Definition IsStringLiteral (Parts : list Expression) : option cty :=
  match Parts with
  | [LiteralValueExpr v _] => Some v
  | _ => None
  end.

(** ** The two output trees

    A Go [interface{}] value, by dynamic type.  [jsonObj] is a defined
    type and [lineObj] an alias of [map[string]interface{}], so type
    assertions tell [VJsonObj] from [VMap]. *)
Inductive value :=
  | VCty (v : cty)                            (* ctyjson.SimpleJSONValue *)
  | VStr (s : string)                         (* string *)
  | VInt (n : Z)                              (* int *)
  | VSlice (l : list value)                   (* []interface{} *)
  | VObjSlice (l : list (gmap string value))  (* []jsonObj *)
  | VLineSlice (l : list (gmap string value)) (* []lineObj *)
  | VJsonObj (m : gmap string value)          (* jsonObj *)
  | VMap (m : gmap string value)              (* map[string]interface{} *)
  | VIntMap (m : gmap string Z).              (* map[string]int *)

Abbreviation obj := (gmap string value).

(** Unchecked type assertions [x.(T)] on a map entry; a missing entry is
    the nil interface. *)
Definition assertJsonObj (x : option value) : result obj :=
  match x with Some (VJsonObj m) => Ok m | _ => Panic PanicTypeAssertion end.
Definition assertLineObj (x : option value) : result obj :=
  match x with Some (VMap m) => Ok m | _ => Panic PanicTypeAssertion end.
Definition assertObjSlice (x : option value) : result (list obj) :=
  match x with Some (VObjSlice l) => Ok l | _ => Panic PanicTypeAssertion end.
Definition assertLineSlice (x : option value) : result (list obj) :=
  match x with Some (VLineSlice l) => Ok l | _ => Panic PanicTypeAssertion end.

(** The positional record of [convertExpression]. *)
Definition lineInfo (sr : Range) : gmap string Z :=
  <["endIndex" := Column (End_ sr)]>
    (<["startIndex" := Column (Start sr)]>
       (<["line" := Line (Start sr)]> ∅)).

(** The three [__key__*] fields written from a name range [nr]. *)
Definition keyFields {V} (inj : Z -> V) (nr : Range) (m : gmap string V)
    : gmap string V :=
  <["__key__line" := inj (Line (Start nr))]>
    (<["__key__endIndex" := inj (Column (End_ nr))]>
       (<["__key__startIndex" := inj (Column (Start nr))]> m)).

(** The attribute loop's probes of [lcfg[key]].  Only a [map[string]int]
    is annotated; no value of dynamic type
    [map[string]map[string]interface{}] is ever built, so the second probe
    never matches. *)
Definition annotateKey (nr : Range) (line : value) : value :=
  match line with
  | VIntMap m => VIntMap (keyFields id nr m)
  | _ => line
  end.

(** The merge at the end of [convertBlock]:
    absent: store bare; a [[]interface{}]: append; anything else: pair. *)
Definition mergeAtKey (key : string) (v : value) (cfg : obj) : obj :=
  match cfg !! key with
  | Some current =>
      match current with
      | VSlice list => <[key := VSlice (list ++ [v])]> cfg
      | _ => <[key := VSlice [current; v]]> cfg
      end
  | None => <[key := v]> cfg
  end.

(** The label loop of [convertBlock].  [cfg] and [lcfg] are the working
    maps, [key] the current key; [finish] is the rest of the function,
    run on the working maps once the labels are used up.  Go re-binds
    [cfg]/[lcfg] to the nested map and writes through the reference; here
    the nested map is rebuilt and stored back under its key. *)
Section LabelLoop.
Variables (blockType : string) (allLabels : list string).
Variable finish : string -> obj -> obj -> result (obj * obj).

Fixpoint nestLabels (key : string) (labels : list string) (cfg lcfg : obj)
    : result (obj * obj) :=
  match labels with
  | [] => finish key cfg lcfg
  | label :: rest =>
      match cfg !! key with
      | Some existing =>
          match existing with
          | VJsonObj sub =>
              match lcfg !! key with
              | Some (VMap lsub) =>
                  '(sub', lsub') ← nestLabels label rest sub lsub;
                  Ok (<[key := VJsonObj sub']> cfg, <[key := VMap lsub']> lcfg)
              | _ => Err (ErrBlockLineToJSON blockType allLabels)
              end
          | _ => Err (ErrBlockToJSON blockType allLabels)
          end
      | None =>
          '(sub', lsub') ← nestLabels label rest ∅ ∅;
          Ok (<[key := VJsonObj sub']> cfg, <[key := VMap lsub']> lcfg)
      end
  end.
End LabelLoop.

(** ** The converter *)

Record Options := mkOptions { Simplify : bool }.
Record converter := mkConverter { bytes : string; options : Options }.

Section Converter.
Variable c : converter.

(** [c.bytes[lo:hi]]; the buffer is taken to fill its capacity. *)
Definition sliceBytes (lo hi : Z) : result string :=
  if (0 <=? lo) && (lo <=? hi) && (hi <=? Z.of_nat (String.length (bytes c)))
  then Ok (substring (Z.to_nat lo) (Z.to_nat (hi - lo)) (bytes c))
  else Panic PanicSliceBounds.

(** [end < len(c.bytes) && c.bytes[end] == ')'] *)
Definition parenAt (end_ : Z) : result bool :=
  if end_ <? Z.of_nat (String.length (bytes c)) then
    if end_ <? 0 then Panic PanicIndex
    else Ok (bool_decide (String.get (Z.to_nat end_) (bytes c) = Some ")"%char))
  else Ok false.

Definition rangeSource (r : Range) : result string :=
  let end_ := Byte (End_ r) in
  extend ← parenAt end_;
  sliceBytes (Byte (Start r)) (if extend : bool then end_ + 1 else end_).

Definition wrapExpr (expr : Expression) : result string :=
  s ← rangeSource (ExprRange expr); Ok ("${" +:+ s +:+ "}").

(** *** Template reconstructor *)

(** [s, err := f(...)] whose [err] is never looked at: on an error the
    callee has returned the empty string. *)
Definition dropErr (m : result string) : result string :=
  match m with
  | Err _ => Ok EmptyString
  | _ => m
  end.

(** The bodies of [convertTemplate], [convertTemplateConditional] and
    [convertTemplateFor], over the [convertStringPart] they call back. *)
Section TemplateBodies.
Variable stringPart : Expression -> result string.

Definition convertTemplateBody (Parts : list Expression) : result string :=
  match IsStringLiteral Parts with
  | Some v => templateValue [v]
  | None =>
      foldM (fun builder part =>
               s ← stringPart part; Ok (builder +:+ s)) Parts EmptyString
  end.

Definition convertTemplateConditionalBody
    (Condition TrueResult FalseResult : Expression) : result string :=
  cond ← rangeSource (ExprRange Condition);
  let builder := "%{if " +:+ cond +:+ "}" in
  match stringPart TrueResult with
  | Err _ => Ok EmptyString                       (* returns the empty string and a nil error *)
  | Panic p => Panic p
  | Ok trueResult =>
      let builder := builder +:+ trueResult in
      falseResult ← dropErr (stringPart FalseResult);
      let builder :=
        if (0 <? Z.of_nat (String.length falseResult))
        then builder +:+ "%{else}" +:+ falseResult
        else builder in
      Ok (builder +:+ "%{endif}")
  end.

Definition convertTemplateForBody
    (KeyVar ValVar : string) (CollExpr ValExpr : Expression) : result string :=
  let builder := "%{for " in
  let builder :=
    if (0 <? Z.of_nat (String.length KeyVar))
    then builder +:+ KeyVar +:+ ", "
    else builder in
  let builder := builder +:+ ValVar +:+ " in " in
  coll ← rangeSource (ExprRange CollExpr);
  let builder := builder +:+ coll +:+ "}" in
  templ ← stringPart ValExpr;
  Ok (builder +:+ templ +:+ "%{endfor}").
End TemplateBodies.

Fixpoint convertStringPart (expr : Expression) : result string :=
  match expr with
  | LiteralValueExpr v _ => ctyToString v
  | TemplateExpr Parts _ => convertTemplateBody convertStringPart Parts
  | TemplateWrapExpr Wrapped _ => convertStringPart Wrapped
  | ConditionalExpr Condition TrueResult FalseResult _ =>
      convertTemplateConditionalBody convertStringPart
        Condition TrueResult FalseResult
  | TemplateJoinExpr Tuple _ =>
      match Tuple with                    (* the unchecked assertion to a ForExpr *)
      | ForExpr KeyVar ValVar CollExpr ValExpr _ =>
          convertTemplateForBody convertStringPart KeyVar ValVar CollExpr ValExpr
      | _ => Panic PanicTypeAssertion
      end
  | _ => wrapExpr expr
  end.

Definition convertTemplate := convertTemplateBody convertStringPart.
Definition convertTemplateConditional :=
  convertTemplateConditionalBody convertStringPart.
Definition convertTemplateFor := convertTemplateForBody convertStringPart.

Definition convertKey (keyExpr : Expression) : result string :=
  match keyExpr with
  | ObjectConsKeyExpr Wrapped _ =>
      match Wrapped with
      | ScopeTraversalExpr _ => rangeSource (ExprRange Wrapped)
      | _ => convertStringPart Wrapped
      end
  | _ => convertStringPart keyExpr
  end.

(** *** Expression converter

    On an error the Go function also returns a line value; every caller
    drops it before it can be observed, so [Err] carries none. *)
Fixpoint convertExpression (expr : Expression) : result (value * value) :=
  let line := VIntMap (lineInfo (StartRange expr)) in
  match expr with
  | LiteralValueExpr Val _ => Ok (VCty Val, line)
  | TemplateExpr Parts _ =>
      ret ← convertTemplate Parts; Ok (VStr ret, line)
  | TemplateWrapExpr Wrapped _ => convertExpression Wrapped
  | TupleConsExpr Exprs _ =>
      list ← collectM (fun ex => '(elem, _) ← convertExpression ex; Ok elem) Exprs;
      Ok (VSlice list, line)
  | ObjectConsExpr Items _ =>
      '(m, l) ← foldM (fun '(m, l) '(KeyExpr, ValueExpr) =>
                         key ← convertKey KeyExpr;
                         '(v, ln) ← convertExpression ValueExpr;
                         Ok (<[key := v]> m, <[key := ln]> l))
                      Items ((∅ : obj), (∅ : obj));
      Ok (VJsonObj m, VMap l)
  | _ => ret ← wrapExpr expr; Ok (VStr ret, line)
  end.

(** *** Body converter and block/label nester *)

(** The block loop's merge into the body's maps. *)
Definition appendBlock (ty : string) (blockConfig lineCfg : obj)
    (acc : obj * obj) : result (obj * obj) :=
  let '(cfg, lcfg) := acc in
  match cfg !! ty with
  | None =>
      Ok (<[ty := VObjSlice [blockConfig]]> cfg,
          <[ty := VLineSlice [lineCfg]]> lcfg)
  | Some current =>
      list ← assertObjSlice (Some current);
      lineList ← assertLineSlice (lcfg !! ty);
      Ok (<[ty := VObjSlice (list ++ [blockConfig])]> cfg,
          <[ty := VLineSlice (lineList ++ [lineCfg])]> lcfg)
  end.

(** One round of the attribute loop. *)
Definition convertAttribute (acc : obj * obj) (kv : string * Attribute)
    : result (obj * obj) :=
  let '(cfg, lcfg) := acc in
  let '(key, value) := kv in
  '(ret, line) ← wrapErr "convert expression" (convertExpression (Expr value));
  Ok (<[key := ret]> cfg, <[key := annotateKey (NameRange value) line]> lcfg).

(** The body's own range, written last. *)
Definition bodyFields (r : Range) (lcfg : obj) : obj :=
  <["endIndex" := VInt (Column (End_ r))]>
    (<["startIndex" := VInt (Column (Start r))]>
       (<["line" := VInt (Line (Start r))]> lcfg)).

Fixpoint convertBody (body : Body) : result (obj * obj) :=
  match body with
  | mkBody attributes blocks srcRange =>
      acc ← foldM (fun acc block =>
                     '(bcfg, blcfg) ← wrapErr "convert block"
                                        (convertBlock block ∅ ∅);
                     blockConfig ← assertJsonObj (bcfg !! BlockType block);
                     lineCfg ← assertLineObj (blcfg !! BlockType block);
                     appendBlock (BlockType block) blockConfig lineCfg acc)
                  blocks ((∅ : obj), (∅ : obj));
      '(cfg, lcfg) ← foldM convertAttribute attributes acc;
      Ok (cfg, bodyFields srcRange lcfg)
  end
with convertBlock (block : Block) (cfg lcfg : obj) : result (obj * obj) :=
  match block with
  | mkBlock blockType labels body typeRange =>
      nestLabels blockType labels
        (fun key cfg lcfg =>
           match convertBody body with
           | Panic p => Panic p
           | Err _ => Panic PanicNilMap   (* the nil line map is written to *)
           | Ok (v, blcfg) =>
               let blcfg := keyFields VInt typeRange blcfg in
               Ok (mergeAtKey key (VJsonObj v) cfg,
                   mergeAtKey key (VMap blcfg) lcfg)
           end)
        blockType labels cfg lcfg
  end.
End Converter.

(** ** Drivers *)

(** [file.Body] is an interface; only an [*hclsyntax.Body] converts. *)
Inductive hclBody :=
  | SyntaxBody (b : Body)
  | ForeignBody.

Record hclFile := mkFile { FileBody : hclBody; FileBytes : string }.

Definition ConvertFile (file : hclFile) (opts : Options) : result (obj * obj) :=
  match FileBody file with
  | SyntaxBody body =>
      wrapErr "convert body" (convertBody (mkConverter (FileBytes file) opts) body)
  | ForeignBody => Err ErrBodyType
  end.

Section Marshal.
(** [json.Marshal], a function of the tree. *)
Variable marshal : value -> result string.

Definition File (file : hclFile) (opts : Options) : result (string * string) :=
  '(convertedFile, lineObj) ← wrapErr "convert file" (ConvertFile file opts);
  jsonBytes ← wrapErr "marshal json" (marshal (VJsonObj convertedFile));
  lineBytes ← wrapErr "marshal json" (marshal (VMap lineObj));
  Ok (jsonBytes, lineBytes).
End Marshal.

(** * Definitions for the properties *)

(** ** Templates *)



(** ** Blocks *)

(** The chain of nested maps a block's labels open around [inner]:
    [labelChain wrap [l1; ...; ln] inner] is [{l1: {... {ln: inner}}}],
    every nested map being stored as [wrap _]. *)
Fixpoint labelChain (wrap : obj -> value) (labels : list string) (inner : obj)
    : obj :=
  match labels with
  | [] => inner
  | label :: rest => {[ label := wrap (labelChain wrap rest inner) ]}
  end.

(** One round of the block loop of [convertBody], under a name
    ([convertBody_eq] below). *)
Definition blockStep (c : converter) (acc : obj * obj) (block : Block)
    : result (obj * obj) :=
  '(bcfg, blcfg) ← wrapErr "convert block" (convertBlock c block ∅ ∅);
  blockConfig ← assertJsonObj (bcfg !! BlockType block);
  lineCfg ← assertLineObj (blcfg !! BlockType block);
  appendBlock (BlockType block) blockConfig lineCfg acc.

(** What [convertBlock] runs once the labels are used up, under a name
    ([convertBlock_eq] below). *)
Definition finishBlock (c : converter) (body : Body) (typeRange : Range)
    (key : string) (cfg lcfg : obj) : result (obj * obj) :=
  match convertBody c body with
  | Panic p => Panic p
  | Err _ => Panic PanicNilMap
  | Ok (v, blcfg) =>
      let blcfg := keyFields VInt typeRange blcfg in
      Ok (mergeAtKey key (VJsonObj v) cfg, mergeAtKey key (VMap blcfg) lcfg)
  end.

(** The object and the line object one block contributes to its type's
    sequences: the label chain around the converted body. *)
Definition blockConfigOf (c : converter) (b : Block) (m : obj) : Prop :=
  exists v bl, convertBody c (BlockBody b) = Ok (v, bl)
               /\ m = labelChain VJsonObj (Labels b) v.

Definition lineCfgOf (c : converter) (b : Block) (l : obj) : Prop :=
  exists v bl, convertBody c (BlockBody b) = Ok (v, bl)
               /\ l = labelChain VMap (Labels b)
                        (keyFields VInt (TypeRange b) bl).

(** A key's entry for the sequence [l]: none while the sequence is empty. *)
Definition sliceEntry (wrap : list obj -> value) (l : list obj) : option value :=
  match l with
  | [] => None
  | _ => Some (wrap l)
  end.

(** The state of the body's maps after the block loop has run over
    [blocks]: under every type, the sequences of what the blocks of that
    type contribute, in order. *)
Definition blocksState (c : converter) (blocks : list Block) (cfg lcfg : obj)
    : Prop :=
  forall ty, exists ms ls,
    Forall2 (blockConfigOf c) (filter (fun b => BlockType b = ty) blocks) ms
    /\ Forall2 (lineCfgOf c) (filter (fun b => BlockType b = ty) blocks) ls
    /\ cfg !! ty = sliceEntry VObjSlice ms
    /\ lcfg !! ty = sliceEntry VLineSlice ls.

(** ** Shape parity of the two trees *)

(** The keys under which a body's line map records positions. *)
Definition positionKeys : list string :=
  ["line"; "startIndex"; "endIndex";
   "__key__startIndex"; "__key__endIndex"; "__key__line"].

(** A positional record: it has [line], [startIndex] and [endIndex]. *)
Definition isRecord (rec : gmap string Z) : Prop :=
  is_Some (rec !! "line") /\ is_Some (rec !! "startIndex")
  /\ is_Some (rec !! "endIndex").

(** [parity v l]: the line node [l] has the shape that goes with the
    value node [v].
    - A scalar, a string and a tuple go with one positional record.
    - A map goes with a map that has every key of the value map and, apart
      from position keys, no other key; the entries under a key that is
      not a position key are in parity.
    - A sequence of block objects goes with a sequence of line objects of
      the same length, in parity element by element. *)
Inductive parity : value -> value -> Prop :=
  | parity_scalar v rec : isRecord rec -> parity (VCty v) (VIntMap rec)
  | parity_string s rec : isRecord rec -> parity (VStr s) (VIntMap rec)
  | parity_tuple vs rec : isRecord rec -> parity (VSlice vs) (VIntMap rec)
  | parity_map (m lm : obj) :
      (forall k, is_Some (m !! k) -> is_Some (lm !! k)) ->
      (forall k, is_Some (lm !! k) -> is_Some (m !! k) \/ k ∈ positionKeys) ->
      (forall k v w, k ∉ positionKeys ->
                     m !! k = Some v -> lm !! k = Some w -> parity v w) ->
      parity (VJsonObj m) (VMap lm)
  | parity_blocks (ms ls : list obj) :
      Forall2 (fun m l => parity (VJsonObj m) (VMap l)) ms ls ->
      parity (VObjSlice ms) (VLineSlice ls).

(** The body's maps are in parity. *)
Definition bodyParity (c : converter) (body : Body) : Prop :=
  forall cfg lcfg, convertBody c body = Ok (cfg, lcfg) ->
                   parity (VJsonObj cfg) (VMap lcfg).

(** ** Two runs on one document *)

(** Two syntax trees of the same document: they differ at most in the
    order in which the attribute map of each body is visited. *)
Inductive sameDocument : Body -> Body -> Prop :=
  | sameDocument_body attrs1 attrs2 blocks1 blocks2 srcRange :
      attrs1 ≡ₚ attrs2 ->
      Forall2 (fun b1 b2 =>
                 BlockType b1 = BlockType b2 /\ Labels b1 = Labels b2
                 /\ TypeRange b1 = TypeRange b2
                 /\ sameDocument (BlockBody b1) (BlockBody b2))
              blocks1 blocks2 ->
      sameDocument (mkBody attrs1 blocks1 srcRange)
                   (mkBody attrs2 blocks2 srcRange).

(** The attribute collection of every body is a map: its keys are
    pairwise distinct. *)
Inductive wfBody : Body -> Prop :=
  | wfBody_body attributes blocks srcRange :
      NoDup attributes.*1 ->
      Forall (fun b => wfBody (BlockBody b)) blocks ->
      wfBody (mkBody attributes blocks srcRange).

(** The same result for two trees of one document. *)
Definition sameResult (c : converter) (b1 : Body) : Prop :=
  forall b2, sameDocument b1 b2 -> wfBody b1 ->
             forall r, convertBody c b1 = Ok r -> convertBody c b2 = Ok r.

(** ** Merging on shared maps *)

(** The entry [convertBlock]'s merge leaves under a key after the values
    [l] have been merged there one after the other: none, the bare value,
    or the sequence of all of them. *)
Definition mergedEntry (l : list value) : option value :=
  match l with
  | [] => None
  | [x] => Some x
  | _ => Some (VSlice l)
  end.

(** Not a [[]interface{}]. *)
Definition notSlice (v : value) : Prop :=
  match v with
  | VSlice _ => False
  | _ => True
  end.

(** The expression kinds [convertExpression] wraps as markup (its default
    case). *)
Definition isWrappedKind (e : Expression) : bool :=
  match e with
  | LiteralValueExpr _ _ | TemplateExpr _ _ | TemplateWrapExpr _ _
  | TupleConsExpr _ _ | ObjectConsExpr _ _ => false
  | _ => true
  end.

(** ** The node types of the two trees *)

(** A node of a value tree: a scalar, a string, a sequence of value
    nodes, an object of value nodes, or a sequence of such objects. *)
Inductive valueNode : value -> Prop :=
  | valueNode_cty v : valueNode (VCty v)
  | valueNode_str s : valueNode (VStr s)
  | valueNode_slice vs : Forall valueNode vs -> valueNode (VSlice vs)
  | valueNode_obj (m : obj) :
      (forall k v, m !! k = Some v -> valueNode v) -> valueNode (VJsonObj m)
  | valueNode_blocks (ms : list obj) :
      Forall (fun m : obj => forall k v, m !! k = Some v -> valueNode v) ms ->
      valueNode (VObjSlice ms).

(** A node of a line tree: an integer, a record of integers, a map of
    line nodes, or a sequence of such maps. *)
Inductive lineNode : value -> Prop :=
  | lineNode_int n : lineNode (VInt n)
  | lineNode_record rec : lineNode (VIntMap rec)
  | lineNode_map (m : obj) :
      (forall k v, m !! k = Some v -> lineNode v) -> lineNode (VMap m)
  | lineNode_blocks (ls : list obj) :
      Forall (fun m : obj => forall k v, m !! k = Some v -> lineNode v) ls ->
      lineNode (VLineSlice ls).

(** Both maps of a converted body have the node types of their tree. *)
Definition bodyNodes (c : converter) (body : Body) : Prop :=
  forall cfg lcfg, convertBody c body = Ok (cfg, lcfg) ->
                   valueNode (VJsonObj cfg) /\ lineNode (VMap lcfg).

(** ** Errors *)

(** The two errors a value conversion raises. *)
Definition isValueError (e : error) : Prop :=
  e = ErrCtyConvert \/ e = ErrTemplateDiags.

(** [attributeOf a body]: [a] is an attribute of [body] or of the body of
    a block nested in it, at any depth. *)
Inductive attributeOf : Attribute -> Body -> Prop :=
  | attributeOf_here k a attributes blocks srcRange :
      (k, a) ∈ attributes ->
      attributeOf a (mkBody attributes blocks srcRange)
  | attributeOf_block a b attributes blocks srcRange :
      b ∈ blocks -> attributeOf a (BlockBody b) ->
      attributeOf a (mkBody attributes blocks srcRange).

(** * Example documents *)

(** A double-quoted string literal of a source text. *)
Definition quoted (s : string) : string :=
  String "034"%char (s +:+ String "034"%char EmptyString).

(** A source text up to and with an opening double quote, and the
    closing double quote. *)
Definition quoted_open (s : string) : string :=
  s +:+ String "034"%char EmptyString.
Definition quoted_close : string := String "034"%char EmptyString.

Definition ex_opts : Options := mkOptions false.

Definition ex_range (l1 c1 b1 l2 c2 b2 : Z) : Range :=
  mkRange (mkPos l1 c1 b1) (mkPos l2 c2 b2).

(** A node whose start range is its range. *)
Definition ex_node (r : Range) : NodeRanges := mkNodeRanges r r.

Definition ex_nl : string := String "010"%char EmptyString.

(** *** One block with two labels: [db 'mysql' 'primary' { x = 1 }]
    (labels in double quotes) *)

Definition ex_db_src : string :=
  "db " +:+ quoted "mysql" +:+ " " +:+ quoted "primary" +:+ " { x = 1 }".

Definition ex_db_block : Block :=
  mkBlock "db" ["mysql"; "primary"]
    (mkBody
       [("x", mkAttribute "x"
                (LiteralValueExpr (CtyNumber 1) (ex_node (ex_range 1 28 27 1 29 28)))
                (ex_range 1 24 23 1 25 24))]
       []
       (ex_range 1 22 21 1 31 30))
    (ex_range 1 1 0 1 3 2).

Definition ex_db_body : Body := mkBody [] [ex_db_block] (ex_range 1 1 0 1 31 30).

Definition ex_db_conv : converter := mkConverter ex_db_src ex_opts.

(** *** Sibling blocks [a {}], one per line *)

Definition ex_a_block (line : Z) : Block :=
  mkBlock "a" []
    (mkBody [] [] (ex_range line 3 (5 * (line - 1) + 2) line 5 (5 * (line - 1) + 4)))
    (ex_range line 1 (5 * (line - 1)) line 2 (5 * (line - 1) + 1)).

Definition ex_a1_src : string := "a {}" +:+ ex_nl.
Definition ex_a1_body : Body :=
  mkBody [] [ex_a_block 1] (ex_range 1 1 0 2 1 5).

Definition ex_a3_src : string :=
  "a {}" +:+ ex_nl +:+ "a {}" +:+ ex_nl +:+ "a {}" +:+ ex_nl.
Definition ex_a3_body : Body :=
  mkBody [] [ex_a_block 1; ex_a_block 2; ex_a_block 3] (ex_range 1 1 0 4 1 15).

(** *** A block and an attribute of one name *)

(** The document [a {}] followed, on the next line, by [a = 1]. *)
Definition ex_clash_src : string := "a {}" +:+ ex_nl +:+ "a = 1" +:+ ex_nl.

Definition ex_clash_attr : string * Attribute :=
  ("a", mkAttribute "a"
          (LiteralValueExpr (CtyNumber 1) (ex_node (ex_range 2 5 9 2 6 10)))
          (ex_range 2 1 5 2 2 6)).

Definition ex_clash_body : Body :=
  mkBody [ex_clash_attr] [ex_a_block 1] (ex_range 1 1 0 3 1 11).

(** *** Templates whose evaluation fails *)

(** A template sequence [${null}]: a template whose single part is the
    literal [null], as the template parser builds it for the branch of a
    conditional or the body of a loop.  Evaluating it fails. *)
Definition ex_null_template (r : Range) : Expression :=
  TemplateExpr [LiteralValueExpr CtyNull (ex_node r)] (ex_node r).

Definition ex_str_template (s : string) (r : Range) : Expression :=
  TemplateExpr [LiteralValueExpr (CtyString s) (ex_node r)] (ex_node r).

Definition ex_attr_x (e : Expression) : string * Attribute :=
  ("x", mkAttribute "x" e (ex_range 1 1 0 1 2 1)).

(** [x = '%{if flag}${null}%{endif}'] (in double quotes). *)
Definition ex_if_src : string := "x = " +:+ quoted "%{if flag}${null}%{endif}".
Definition ex_if_body : Body :=
  let flag := ScopeTraversalExpr (ex_node (ex_range 1 11 10 1 15 14)) in
  mkBody
    [ex_attr_x
       (TemplateExpr
          [ConditionalExpr flag
             (ex_null_template (ex_range 1 16 15 1 23 22))
             (ex_str_template EmptyString (ex_range 1 23 22 1 23 22))
             (mkNodeRanges (ex_range 1 6 5 1 31 30) (ex_range 1 11 10 1 15 14))]
          (mkNodeRanges (ex_range 1 5 4 1 32 31) (ex_range 1 11 10 1 15 14)))]
    [] (ex_range 1 1 0 1 32 31).

(** [x = '%{if flag}A%{else}${null}%{endif}'] (in double quotes). *)
Definition ex_else_src : string :=
  "x = " +:+ quoted "%{if flag}A%{else}${null}%{endif}".
Definition ex_else_body : Body :=
  let flag := ScopeTraversalExpr (ex_node (ex_range 1 11 10 1 15 14)) in
  mkBody
    [ex_attr_x
       (TemplateExpr
          [ConditionalExpr flag
             (ex_str_template "A" (ex_range 1 16 15 1 17 16))
             (ex_null_template (ex_range 1 24 23 1 31 30))
             (mkNodeRanges (ex_range 1 6 5 1 39 38) (ex_range 1 11 10 1 15 14))]
          (mkNodeRanges (ex_range 1 5 4 1 40 39) (ex_range 1 11 10 1 15 14)))]
    [] (ex_range 1 1 0 1 40 39).

(** [x = '%{for v in vs}${null}%{endfor}'] (in double quotes), at the top
    level and, on the second line, inside a block [b { ... }]. *)
Definition ex_for_src : string :=
  "x = " +:+ quoted "%{for v in vs}${null}%{endfor}".
Definition ex_for_in_block_src : string :=
  "b {" +:+ ex_nl +:+ ex_for_src +:+ ex_nl +:+ "}".

(** The attribute on line [line], its first byte at offset [off]. *)
Definition ex_for_attr (line off : Z) : string * Attribute :=
  let at_ c1 c2 := ex_range line c1 (off + c1 - 1) line c2 (off + c2 - 1) in
  let vs := ScopeTraversalExpr (ex_node (at_ 17 19)) in
  ("x", mkAttribute "x"
          (TemplateExpr
             [TemplateJoinExpr
                (ForExpr EmptyString "v" vs
                   (ex_null_template (at_ 20 27))
                   (mkNodeRanges (at_ 6 36) (at_ 6 8)))
                (mkNodeRanges (at_ 6 36) (at_ 6 8))]
             (mkNodeRanges (at_ 5 37) (at_ 6 8)))
          (at_ 1 2)).

Definition ex_for_body : Body :=
  mkBody [ex_for_attr 1 0] [] (ex_range 1 1 0 1 37 36).
Definition ex_for_in_block_body : Body :=
  mkBody []
    [mkBlock "b" [] (mkBody [ex_for_attr 2 4] [] (ex_range 1 3 2 3 2 42))
       (ex_range 1 1 0 1 2 1)]
    (ex_range 1 1 0 3 2 42).

(** *** A tuple *)

(** The document [x = [1, 2]]. *)
Definition ex_tuple_src : string := "x = [1, 2]".

Definition ex_tuple_body : Body :=
  mkBody
    [("x", mkAttribute "x"
             (TupleConsExpr
                [LiteralValueExpr (CtyNumber 1) (ex_node (ex_range 1 6 5 1 7 6));
                 LiteralValueExpr (CtyNumber 2) (ex_node (ex_range 1 9 8 1 10 9))]
                (mkNodeRanges (ex_range 1 5 4 1 11 10) (ex_range 1 5 4 1 6 5)))
             (ex_range 1 1 0 1 2 1))]
    []
    (ex_range 1 1 0 1 11 10).

(** *** Two attributes *)

(** The document [a = 1], [b = 2] on two lines, its attribute map visited
    in either order. *)
Definition ex_ab_src : string := "a = 1" +:+ ex_nl +:+ "b = 2" +:+ ex_nl.

Definition ex_attr_a : string * Attribute :=
  ("a", mkAttribute "a"
          (LiteralValueExpr (CtyNumber 1) (ex_node (ex_range 1 5 4 1 6 5)))
          (ex_range 1 1 0 1 2 1)).

Definition ex_attr_b : string * Attribute :=
  ("b", mkAttribute "b"
          (LiteralValueExpr (CtyNumber 2) (ex_node (ex_range 2 5 10 2 6 11)))
          (ex_range 2 1 6 2 2 7)).

Definition ex_ab_body : Body :=
  mkBody [ex_attr_a; ex_attr_b] [] (ex_range 1 1 0 3 1 12).
Definition ex_ba_body : Body :=
  mkBody [ex_attr_b; ex_attr_a] [] (ex_range 1 1 0 3 1 12).

(** A serializer for the example: the keys of a map, joined by commas. *)
Definition ex_marshal (v : value) : result string :=
  match v with
  | VJsonObj m | VMap m => Ok (String.concat "," (map_to_list m).*1)
  | _ => Err ErrMarshal
  end.

(** *** A null literal as a part of a template, inside a block *)

(** [b {], [x = 'a${null}'] (in double quotes), [}] on three lines. *)
Definition ex_null_part_src : string :=
  "b {" +:+ ex_nl +:+ "x = " +:+ quoted "a${null}" +:+ ex_nl +:+ "}".

Definition ex_null_part_body : Body :=
  mkBody []
    [mkBlock "b" []
       (mkBody
          [("x", mkAttribute "x"
                   (TemplateExpr
                      [LiteralValueExpr (CtyString "a")
                         (ex_node (ex_range 2 6 9 2 7 10));
                       LiteralValueExpr CtyNull
                         (ex_node (ex_range 2 9 12 2 13 16))]
                      (mkNodeRanges (ex_range 2 5 8 2 15 18)
                                    (ex_range 2 6 9 2 7 10)))
                   (ex_range 2 1 4 2 2 5))]
          [] (ex_range 1 3 2 3 2 20))
       (ex_range 1 1 0 1 2 1)]
    (ex_range 1 1 0 3 2 20).

(** *** An object with a repeated key *)

(** The document [x = {a = 1, a = 2}]. *)
Definition ex_dup_src : string := "x = {a = 1, a = 2}".

Definition ex_dup_item (keyCol valCol : Z) (n : Z) : Expression * Expression :=
  (ObjectConsKeyExpr
     (ScopeTraversalExpr
        (ex_node (ex_range 1 keyCol (keyCol - 1) 1 (keyCol + 1) keyCol)))
     (ex_node (ex_range 1 keyCol (keyCol - 1) 1 (keyCol + 1) keyCol)),
   LiteralValueExpr (CtyNumber n)
     (ex_node (ex_range 1 valCol (valCol - 1) 1 (valCol + 1) valCol))).

Definition ex_dup_object : Expression :=
  ObjectConsExpr [ex_dup_item 6 10 1; ex_dup_item 13 17 2]
    (mkNodeRanges (ex_range 1 5 4 1 19 18) (ex_range 1 5 4 1 6 5)).

(** * Properties *)

(** ** The result monad *)

Lemma bind_Ok {A B} (m : result A) (f : A -> result B) (b : B) :
  m ≫= f = Ok b -> exists a, m = Ok a /\ f a = Ok b.
Proof. destruct m as [a| |]; simpl; [eauto | discriminate | discriminate]. Qed.

Lemma wrapErr_Ok {A} ctx (m : result A) (a : A) :
  wrapErr ctx m = Ok a <-> m = Ok a.
Proof. destruct m; simpl; split; congruence. Qed.

Lemma foldM_app {A S} (step : S -> A -> result S) (l1 l2 : list A) (s : S) :
  foldM step (l1 ++ l2) s = foldM step l1 s ≫= foldM step l2.
Proof.
  revert s; induction l1 as [|x l1 IH]; intros s; simpl; [done|].
  destruct (step s x); simpl; auto.
Qed.

(** Destructs the binds of a hypothesis [H : ... = Ok _]. *)
Ltac ok_inv H :=
  repeat match type of H with
  | wrapErr _ _ = Ok _ => apply wrapErr_Ok in H
  | _ ≫= _ = Ok _ =>
      let a := fresh "a" in let Ha := fresh "Hm" in
      apply bind_Ok in H as (a & Ha & H)
  | (let '(_, _) := ?p in _) = Ok _ => destruct p
  | Ok _ = Ok _ => injection H as H
  end.

(** ** Range extractor *)

Lemma substring_snoc (s : string) (n m : nat) (ch : ascii) :
  String.get (n + m) s = Some ch ->
  substring n (S m) s = substring n m s +:+ String ch EmptyString.
Proof.
  revert n m; induction s as [|a s IH]; intros n m H.
  - destruct n, m; discriminate.
  - destruct n as [|n].
    + destruct m as [|m]; simpl in *.
      * injection H as ->. by destruct s.
      * f_equal. by apply (IH 0%nat m).
    + simpl in *. by apply IH.
Qed.

Lemma get_Some_lt (s : string) (n : nat) (ch : ascii) :
  String.get n s = Some ch -> (n < String.length s)%nat.
Proof.
  revert n; induction s as [|a s IH]; intros [|n] H; simpl in *;
    try discriminate; [lia|]. apply IH in H. lia.
Qed.

Section RangeSource.
Variables (c : converter) (r : Range).
Let lo := Byte (Start r).
Let hi := Byte (End_ r).
Let len := Z.of_nat (String.length (bytes c)).
Hypothesis valid : 0 <= lo /\ lo <= hi /\ hi <= len.

Lemma rangeSource_paren :
  String.get (Z.to_nat hi) (bytes c) = Some ")"%char ->
  rangeSource c r
  = Ok (substring (Z.to_nat lo) (Z.to_nat (hi - lo)) (bytes c) +:+ ")").
Proof using valid.
  intros Hget. unfold rangeSource, parenAt. fold hi lo len.
  assert (hi < len) as Hlt.
  { apply get_Some_lt in Hget. unfold len. lia. }
  destruct (Z.ltb_spec hi len); [|lia].
  destruct (Z.ltb_spec hi 0); [lia|]. simpl.
  rewrite bool_decide_eq_true_2 by done.
  unfold sliceBytes. fold len.
  destruct (Z.leb_spec 0 lo); [|lia].
  destruct (Z.leb_spec lo (hi + 1)); [|lia].
  destruct (Z.leb_spec (hi + 1) len); [|lia]. simpl.
  replace (Z.to_nat (hi + 1 - lo)) with (S (Z.to_nat (hi - lo))) by lia.
  f_equal. apply substring_snoc.
  by replace (Z.to_nat lo + Z.to_nat (hi - lo))%nat with (Z.to_nat hi) by lia.
Qed.

Lemma rangeSource_plain :
  String.get (Z.to_nat hi) (bytes c) <> Some ")"%char ->
  rangeSource c r = Ok (substring (Z.to_nat lo) (Z.to_nat (hi - lo)) (bytes c)).
Proof using valid.
  intros Hget. unfold rangeSource, parenAt. fold hi lo len.
  assert (sliceBytes c lo hi
          = Ok (substring (Z.to_nat lo) (Z.to_nat (hi - lo)) (bytes c))) as Hs.
  { unfold sliceBytes. fold len.
    destruct (Z.leb_spec 0 lo); [|lia].
    destruct (Z.leb_spec lo hi); [|lia].
    by destruct (Z.leb_spec hi len); [|lia]. }
  destruct (Z.ltb_spec hi len); [|done].
  destruct (Z.ltb_spec hi 0); [lia|]. simpl.
  by rewrite bool_decide_eq_false_2.
Qed.
End RangeSource.

(** C8 (amended).  For a range with valid offsets (start <= end <= length
    of the source), [rangeSource] returns the bytes from start to end,
    followed by one more byte exactly when the byte at position end exists
    and is a closing parenthesis.  So a range that stops before the closing
    parenthesis of [f(x)] yields [f(x)], and a range that already includes
    it yields [f(x)] too as long as the byte after the range is not another
    closing parenthesis. *)
Theorem C8_rangeSource_extends_on_following_paren (c : converter) (r : Range) :
  let lo := Byte (Start r) in
  let hi := Byte (End_ r) in
  let within := substring (Z.to_nat lo) (Z.to_nat (hi - lo)) (bytes c) in
  0 <= lo -> lo <= hi -> hi <= Z.of_nat (String.length (bytes c)) ->
  (String.get (Z.to_nat hi) (bytes c) = Some ")"%char ->
     rangeSource c r = Ok (within +:+ ")"))
  /\ (String.get (Z.to_nat hi) (bytes c) <> Some ")"%char ->
     rangeSource c r = Ok within).
Proof.
  intros lo hi within H0 H1 H2. split; intros Hget.
  - by apply rangeSource_paren.
  - by apply rangeSource_plain.
Qed.

(** The range of [f(x)] in [y = f(x)] without its closing parenthesis. *)
Lemma C8_rangeSource_witness :
  rangeSource (mkConverter "y = f(x)" (mkOptions false))
              (mkRange (mkPos 1 5 4) (mkPos 1 8 7)) = Ok "f(x)".
Proof.
  exact (proj1 (C8_rangeSource_extends_on_following_paren
                  (mkConverter "y = f(x)" (mkOptions false))
                  (mkRange (mkPos 1 5 4) (mkPos 1 8 7))
                  ltac:(simpl; lia) ltac:(simpl; lia) ltac:(simpl; lia))
               eq_refl).
Defined.

(** C8, as stated, fails: in [y = g(f(x))] the range of the inner call
    [f(x)], closing parenthesis included, is followed by the closing
    parenthesis of [g], and the extracted text ends in two of them. *)
Lemma C8_rangeSource_counterexample :
  let c := mkConverter "y = g(f(x))" (mkOptions false) in
  let r := mkRange (mkPos 1 7 6) (mkPos 1 11 10) in
  sliceBytes c (Byte (Start r)) (Byte (End_ r)) = Ok "f(x)"
  /\ rangeSource c r = Ok "f(x))"
  /\ rangeSource c r <> Ok "f(x)".
Proof. vm_compute. repeat split; discriminate. Qed.

(** ** Expression converter *)

Section ExpressionFacts.
Variable c : converter.

(** The item loop of an object construction keeps the value map and
    the line map on the same keys. *)
Lemma objectItems_dom (items : list (Expression * Expression))
      (m0 l0 m l : obj) :
  foldM (fun '(m, l) '(KeyExpr, ValueExpr) =>
           key ← convertKey c KeyExpr;
           '(v, ln) ← convertExpression c ValueExpr;
           Ok (<[key := v]> m, <[key := ln]> l)) items (m0, l0) = Ok (m, l) ->
  dom l0 = dom m0 -> dom l = dom m.
Proof.
  revert m0 l0; induction items as [|[k e] items IH]; intros m0 l0 H Hd.
  - simpl in H. by injection H as <- <-.
  - simpl in H. apply bind_Ok in H as ([m1 l1] & H1 & H).
    ok_inv H1. subst. eapply IH; [exact H|].
    rewrite !dom_insert_L. by rewrite Hd.
Qed.
End ExpressionFacts.

(** C6 (amended).  For every expression that is neither an object
    construction nor a template wrap, a successful [convertExpression]
    returns as Line Node the positional record whose [line], [startIndex]
    and [endIndex] are the line, start column and end column of the
    expression's own start range.  A template wrap returns whatever its
    wrapped expression returns, and an object construction returns a map
    with the keys of its value map. *)
Theorem C6_line_node_by_kind (c : converter) (e : Expression) (v l : value) :
  convertExpression c e = Ok (v, l) ->
  match e with
  | TemplateWrapExpr Wrapped _ => convertExpression c Wrapped = Ok (v, l)
  | ObjectConsExpr _ _ =>
      exists m lm, v = VJsonObj m /\ l = VMap lm /\ dom lm = dom m
  | _ =>
      exists rec, l = VIntMap rec
        /\ rec !! "line" = Some (Line (Start (StartRange e)))
        /\ rec !! "startIndex" = Some (Column (Start (StartRange e)))
        /\ rec !! "endIndex" = Some (Column (End_ (StartRange e)))
        /\ size rec = 3%nat
  end.
Proof.
  intros H.
  assert (forall sr, exists rec, VIntMap (lineInfo sr) = VIntMap rec
            /\ rec !! "line" = Some (Line (Start sr))
            /\ rec !! "startIndex" = Some (Column (Start sr))
            /\ rec !! "endIndex" = Some (Column (End_ sr))
            /\ size rec = 3%nat) as Hrec.
  { intros sr. exists (lineInfo sr). unfold lineInfo. repeat split. }
  destruct e; simpl in H; try (ok_inv H; subst; apply Hrec).
  - exact H.
  - apply bind_Ok in H as ([m lm] & Hm & H). ok_inv H. subst.
    exists m, lm. repeat split. eapply objectItems_dom; [exact Hm|done].
Qed.

(** The literal of [x = 1]. *)
Lemma C6_line_node_witness :
  let e := LiteralValueExpr (CtyNumber 1)
             (mkNodeRanges (mkRange (mkPos 1 5 4) (mkPos 1 6 5))
                           (mkRange (mkPos 1 5 4) (mkPos 1 6 5))) in
  exists rec, VIntMap (lineInfo (StartRange e)) = VIntMap rec
    /\ rec !! "line" = Some (Line (Start (StartRange e)))
    /\ rec !! "startIndex" = Some (Column (Start (StartRange e)))
    /\ rec !! "endIndex" = Some (Column (End_ (StartRange e)))
    /\ size rec = 3%nat.
Proof.
  exact (C6_line_node_by_kind (mkConverter "x = 1" (mkOptions false))
           (LiteralValueExpr (CtyNumber 1)
              (mkNodeRanges (mkRange (mkPos 1 5 4) (mkPos 1 6 5))
                            (mkRange (mkPos 1 5 4) (mkPos 1 6 5))))
           _ _ eq_refl).
Defined.

(** C6, as stated, fails for two kinds.  The object construction of
    [x = {}] returns an empty map, which has no [line] field; the template
    wrap of [y = '${var.z}'] (in double quotes), whose own start range begins at column 5,
    returns the record of the wrapped traversal, which begins at column 8. *)
Lemma C6_line_node_counterexample :
  (let c := mkConverter "x = {}" (mkOptions false) in
   let e := ObjectConsExpr []
              (mkNodeRanges (mkRange (mkPos 1 5 4) (mkPos 1 7 6))
                            (mkRange (mkPos 1 5 4) (mkPos 1 6 5))) in
   convertExpression c e = Ok (VJsonObj ∅, VMap ∅)
   /\ (∅ : obj) !! "line" = None)
  /\
  (let c := mkConverter ("y = " +:+ quoted "${var.z}") (mkOptions false) in
   let inner := ScopeTraversalExpr
                  (mkNodeRanges (mkRange (mkPos 1 8 7) (mkPos 1 13 12))
                                (mkRange (mkPos 1 8 7) (mkPos 1 13 12))) in
   let e := TemplateWrapExpr inner
              (mkNodeRanges (mkRange (mkPos 1 5 4) (mkPos 1 15 14))
                            (mkRange (mkPos 1 5 4) (mkPos 1 15 14))) in
   Column (Start (StartRange e)) = 5
   /\ exists rec, convertExpression c e = Ok (VStr "${var.z}", VIntMap rec)
        /\ rec !! "startIndex" = Some 8).
Proof.
  split; [by vm_compute|].
  split; [reflexivity|]. eexists. split; [vm_compute; reflexivity|].
  reflexivity.
Qed.

(** ** Template reconstructor *)

Lemma string_app_assoc (s1 s2 s3 : string) :
  (s1 +:+ s2) +:+ s3 = s1 +:+ s2 +:+ s3.
Proof. induction s1 as [|a s1 IH]; simpl; [done|by rewrite IH]. Qed.

Lemma string_app_nil_r (s : string) : s +:+ EmptyString = s.
Proof. induction s as [|a s IH]; simpl; [done|by rewrite IH]. Qed.

Section TemplateFacts.
Variable c : converter.







End TemplateFacts.



(** ** Block/label nester *)

(** The merge at the end of [convertBlock], case by case.  [convertBody]
    only ever runs it on a map without the key. *)
Lemma mergeAtKey_lookup (key : string) (v : value) (cfg : obj) :
  mergeAtKey key v cfg !! key
  = Some (match cfg !! key with
          | None => v
          | Some (VSlice list) => VSlice (list ++ [v])
          | Some current => VSlice [current; v]
          end).
Proof.
  unfold mergeAtKey. destruct (cfg !! key) as [[]|];
    by rewrite lookup_insert_eq.
Qed.

Section BlockFacts.
Variable c : converter.

Lemma convertBody_eq attributes blocks srcRange :
  convertBody c (mkBody attributes blocks srcRange)
  = acc ← foldM (blockStep c) blocks ((∅ : obj), (∅ : obj));
    '(cfg, lcfg) ← foldM (convertAttribute c) attributes acc;
    Ok (cfg, bodyFields srcRange lcfg).
Proof. reflexivity. Qed.

Lemma convertBlock_eq blockType labels body typeRange cfg lcfg :
  convertBlock c (mkBlock blockType labels body typeRange) cfg lcfg
  = nestLabels blockType labels (finishBlock c body typeRange)
      blockType labels cfg lcfg.
Proof. reflexivity. Qed.

(** On fresh maps every label opens a new nested map, and the final key
    is free. *)
Lemma nestLabels_fresh blockType allLabels body typeRange v bl :
  convertBody c body = Ok (v, bl) ->
  forall labels key,
    nestLabels blockType allLabels (finishBlock c body typeRange)
      key labels ∅ ∅
    = Ok ({[ key := VJsonObj (labelChain VJsonObj labels v) ]},
          {[ key := VMap (labelChain VMap labels
                            (keyFields VInt typeRange bl)) ]}).
Proof.
  intros Hb. induction labels as [|label rest IH]; intros key; simpl.
  - unfold finishBlock, mergeAtKey. rewrite Hb, !lookup_empty.
    by rewrite !insert_empty.
  - rewrite lookup_empty, IH. simpl. by rewrite !insert_empty.
Qed.

Lemma nestLabels_fresh_Ok blockType allLabels body typeRange labels key r :
  nestLabels blockType allLabels (finishBlock c body typeRange)
    key labels ∅ ∅ = Ok r ->
  exists v bl, convertBody c body = Ok (v, bl).
Proof.
  revert key r; induction labels as [|label rest IH]; intros key r; simpl.
  - unfold finishBlock. destruct (convertBody c body) as [[v bl]| |];
      try discriminate. eauto.
  - rewrite lookup_empty. intros H.
    apply bind_Ok in H as (a & H & _). eauto.
Qed.

Lemma convertBlock_fresh block v bl :
  convertBody c (BlockBody block) = Ok (v, bl) ->
  convertBlock c block ∅ ∅
  = Ok ({[ BlockType block :=
             VJsonObj (labelChain VJsonObj (Labels block) v) ]},
        {[ BlockType block :=
             VMap (labelChain VMap (Labels block)
                     (keyFields VInt (TypeRange block) bl)) ]}).
Proof.
  destruct block as [ty labels body tr].
  unfold BlockBody, BlockType, Labels, TypeRange. intros Hb.
  rewrite convertBlock_eq. by apply nestLabels_fresh.
Qed.

Lemma convertBlock_fresh_Ok block r :
  convertBlock c block ∅ ∅ = Ok r ->
  exists v bl, convertBody c (BlockBody block) = Ok (v, bl).
Proof.
  destruct block as [ty labels body tr]. unfold BlockBody.
  rewrite convertBlock_eq. apply nestLabels_fresh_Ok.
Qed.
End BlockFacts.

(** C10.  When [convertBlock], run on fresh empty value and line maps,
    returns without error, the value map holds a [jsonObj] and the line
    map a [lineObj] under the block's type name, so both unchecked type
    assertions of [convertBody]'s block loop succeed. *)
Theorem C10_block_entries_are_maps (c : converter) (block : Block)
    (bcfg blcfg : obj) :
  convertBlock c block ∅ ∅ = Ok (bcfg, blcfg) ->
  exists m l,
    bcfg !! BlockType block = Some (VJsonObj m)
    /\ blcfg !! BlockType block = Some (VMap l)
    /\ assertJsonObj (bcfg !! BlockType block) = Ok m
    /\ assertLineObj (blcfg !! BlockType block) = Ok l.
Proof.
  intros H. destruct (convertBlock_fresh_Ok c block _ H) as (v & bl & Hb).
  rewrite (convertBlock_fresh c block v bl Hb) in H. injection H as <- <-.
  do 2 eexists. rewrite !lookup_singleton_eq. simpl. eauto.
Qed.

(** The block [db 'mysql' 'primary' { x = 1 }] on fresh maps. *)
Lemma C10_block_entries_witness :
  exists bcfg blcfg,
    convertBlock ex_db_conv ex_db_block ∅ ∅ = Ok (bcfg, blcfg)
    /\ exists m l,
        bcfg !! "db" = Some (VJsonObj m)
        /\ blcfg !! "db" = Some (VMap l)
        /\ assertJsonObj (bcfg !! "db") = Ok m
        /\ assertLineObj (blcfg !! "db") = Ok l.
Proof.
  eexists _, _. split; [vm_compute; reflexivity|].
  apply (C10_block_entries_are_maps ex_db_conv ex_db_block). reflexivity.
Defined.

(** C2 (amended).  For every block whose type name is followed by n
    labels and whose body converts, [convertBlock] on fresh maps stores
    under the type name a chain of nested objects keyed by each label in
    order, with the converted body under the last label; [convertBody]
    stores that chain as the single element of a sequence under the type
    name.  So the one block [db 'mysql' 'primary' { x = 1 }] produces the
    value tree [{db: [{mysql: {primary: {x: 1}}}]}]. *)
Theorem C2_labels_nest_inside_sequence (c : converter) (blockType : string)
    (labels : list string) (body : Body) (typeRange : Range) (v bl : obj) :
  convertBody c body = Ok (v, bl) ->
  let chain := labelChain VJsonObj labels v in
  let lchain := labelChain VMap labels (keyFields VInt typeRange bl) in
  convertBlock c (mkBlock blockType labels body typeRange) ∅ ∅
  = Ok ({[ blockType := VJsonObj chain ]}, {[ blockType := VMap lchain ]})
  /\ forall srcRange,
      convertBody c (mkBody [] [mkBlock blockType labels body typeRange] srcRange)
      = Ok ({[ blockType := VObjSlice [chain] ]},
            bodyFields srcRange {[ blockType := VLineSlice [lchain] ]}).
Proof.
  intros Hb chain lchain.
  pose proof (convertBlock_fresh c (mkBlock blockType labels body typeRange)
                v bl Hb) as Hblk.
  unfold BlockType, Labels, TypeRange in Hblk. fold chain lchain in Hblk.
  split; [exact Hblk|]. intros srcRange.
  rewrite convertBody_eq. simpl foldM. unfold blockStep at 1.
  rewrite Hblk. simpl. rewrite !lookup_singleton_eq. simpl.
  rewrite lookup_empty. by rewrite !insert_empty.
Qed.

(** The document [db 'mysql' 'primary' { x = 1 }]. *)
Lemma C2_labels_nest_witness :
  convertBody ex_db_conv ex_db_body
  = Ok ({[ "db" := VObjSlice
             [ {[ "mysql" := VJsonObj
                    {[ "primary" := VJsonObj {[ "x" := VCty (CtyNumber 1) ]} ]} ]} ] ]},
        bodyFields (ex_range 1 1 0 1 31 30)
          {[ "db" := VLineSlice
               [ labelChain VMap ["mysql"; "primary"]
                   (keyFields VInt (ex_range 1 1 0 1 3 2)
                      (bodyFields (ex_range 1 22 21 1 31 30)
                         {[ "x" := VIntMap
                              (keyFields id (ex_range 1 24 23 1 25 24)
                                 (lineInfo (ex_range 1 28 27 1 29 28))) ]})) ] ]}).
Proof.
  exact (proj2 (C2_labels_nest_inside_sequence ex_db_conv "db"
                  ["mysql"; "primary"] (BlockBody ex_db_block)
                  (ex_range 1 1 0 1 3 2) _ _ eq_refl)
               (ex_range 1 1 0 1 31 30)).
Defined.

(** C2, as stated, fails: the value tree of that document does not hold
    the chain of nested objects under [db], but a one-element sequence
    holding it. *)
Lemma C2_labels_nest_counterexample :
  exists cfg lcfg,
    ConvertFile (mkFile (SyntaxBody ex_db_body) ex_db_src) ex_opts = Ok (cfg, lcfg)
    /\ cfg !! "db"
       = Some (VObjSlice
                 [ {[ "mysql" := VJsonObj
                        {[ "primary" := VJsonObj {[ "x" := VCty (CtyNumber 1) ]} ]} ]} ])
    /\ cfg <> {[ "db" := VJsonObj
                   {[ "mysql" := VJsonObj
                        {[ "primary" := VJsonObj {[ "x" := VCty (CtyNumber 1) ]} ]} ]} ]}.
Proof.
  eexists _, _. split; [vm_compute; reflexivity|]. split; [reflexivity|].
  intros H. apply (f_equal (fun m : obj => m !! "db")) in H.
  vm_compute in H. discriminate.
Qed.

(** ** Body converter: the block loop *)

Section BlockLoop.
Variable c : converter.

Lemma blockStep_Ok acc b acc' :
  blockStep c acc b = Ok acc' ->
  exists m l, blockConfigOf c b m /\ lineCfgOf c b l
              /\ appendBlock (BlockType b) m l acc = Ok acc'.
Proof.
  unfold blockStep. intros H.
  apply bind_Ok in H as ([bcfg blcfg] & Hblk & H). apply wrapErr_Ok in Hblk.
  destruct (convertBlock_fresh_Ok c b _ Hblk) as (v & bl & Hb).
  rewrite (convertBlock_fresh c b v bl Hb) in Hblk. injection Hblk as <- <-.
  rewrite !lookup_singleton_eq in H. simpl in H.
  do 2 eexists. split; [|split; [|exact H]]; by exists v, bl.
Qed.

Lemma sliceEntry_snoc wrap (l : list obj) (x : obj) :
  sliceEntry wrap (l ++ [x]) = Some (wrap (l ++ [x])).
Proof. by destruct l. Qed.

Lemma blocksState_step blocks b cfg lcfg acc' :
  blocksState c blocks cfg lcfg ->
  blockStep c (cfg, lcfg) b = Ok acc' ->
  blocksState c (blocks ++ [b]) acc'.1 acc'.2.
Proof.
  intros Hst H. apply blockStep_Ok in H as (m & l & Hm & Hl & H).
  assert (exists ms ls,
             Forall2 (blockConfigOf c)
               (filter (fun b' => BlockType b' = BlockType b) blocks) ms
             /\ Forall2 (lineCfgOf c)
                  (filter (fun b' => BlockType b' = BlockType b) blocks) ls
             /\ cfg !! BlockType b = sliceEntry VObjSlice ms
             /\ lcfg !! BlockType b = sliceEntry VLineSlice ls
             /\ acc' = (<[BlockType b := VObjSlice (ms ++ [m])]> cfg,
                        <[BlockType b := VLineSlice (ls ++ [l])]> lcfg))
    as (ms & ls & Hms & Hls & Hc & Hlc & ->).
  { destruct (Hst (BlockType b)) as (ms & ls & Hms & Hls & Hc & Hlc).
    exists ms, ls. repeat split; try done.
    unfold appendBlock in H. rewrite Hc, Hlc in H.
    pose proof (Forall2_length _ _ _ Hms) as Hlen1.
    pose proof (Forall2_length _ _ _ Hls) as Hlen2.
    destruct ms as [|m0 ms]; destruct ls as [|l0 ls]; simpl in *;
      congruence. }
  intros ty. rewrite filter_app. simpl.
  destruct (decide (ty = BlockType b)) as [->|Hne].
  - exists (ms ++ [m]), (ls ++ [l]).
    rewrite filter_cons_True by done. rewrite filter_nil.
    rewrite !lookup_insert_eq, !sliceEntry_snoc.
    repeat split; try done; apply Forall2_app; auto.
  - destruct (Hst ty) as (ms' & ls' & Hms' & Hls' & Hc' & Hlc').
    exists ms', ls'.
    rewrite filter_cons_False by congruence. rewrite filter_nil, app_nil_r.
    by rewrite !lookup_insert_ne by done.
Qed.

Lemma blocks_loop_from blocks0 blocks cfg0 lcfg0 acc :
  blocksState c blocks0 cfg0 lcfg0 ->
  foldM (blockStep c) blocks (cfg0, lcfg0) = Ok acc ->
  blocksState c (blocks0 ++ blocks) acc.1 acc.2.
Proof.
  revert blocks0 cfg0 lcfg0; induction blocks as [|b blocks IH];
    intros blocks0 cfg0 lcfg0 Hst H; simpl in H.
  - injection H as <-. by rewrite app_nil_r.
  - apply bind_Ok in H as ([cfg1 lcfg1] & Hstep & H).
    rewrite (assoc_L (++) blocks0 [b] blocks : blocks0 ++ b :: blocks = _).
    eapply IH; [|exact H].
    exact (blocksState_step _ _ _ _ _ Hst Hstep).
Qed.

Lemma blocks_loop blocks acc :
  foldM (blockStep c) blocks ((∅ : obj), (∅ : obj)) = Ok acc ->
  blocksState c blocks acc.1 acc.2.
Proof.
  intros H. apply (blocks_loop_from [] blocks ∅ ∅); [|done].
  intros ty. exists [], []. rewrite filter_nil, !lookup_empty.
  repeat split; constructor.
Qed.

(** The attribute loop writes only under the attributes' keys. *)
Lemma attributes_loop_other attributes acc acc' k :
  foldM (convertAttribute c) attributes acc = Ok acc' ->
  k ∉ attributes.*1 ->
  acc'.1 !! k = acc.1 !! k /\ acc'.2 !! k = acc.2 !! k.
Proof.
  revert acc; induction attributes as [|[key a] attributes IH];
    intros [cfg lcfg] H Hk; simpl in H.
  - by injection H as <-.
  - apply bind_Ok in H as ([cfg1 lcfg1] & Hstep & H).
    rewrite fmap_cons, not_elem_of_cons in Hk. destruct Hk as [Hne Hk].
    destruct (IH _ H Hk) as [-> ->]. simpl in *.
    ok_inv Hstep. subst. by rewrite !lookup_insert_ne.
Qed.
End BlockLoop.

(** C1 (amended).  At one body level, under a block type that is not also
    the name of an attribute, the value tree holds an ordered sequence
    with one element for each block of that type, in syntactic order: a
    one-element sequence when there is exactly one such block (not the
    bare converted body), and one more element for each further block.
    Each element is the block's label chain around its converted body. *)
Theorem C1_blocks_collect_in_sequence (c : converter)
    (attributes : list (string * Attribute)) (blocks : list Block)
    (srcRange : Range) (cfg lcfg : obj) (ty : string) :
  convertBody c (mkBody attributes blocks srcRange) = Ok (cfg, lcfg) ->
  ty ∉ attributes.*1 ->
  filter (fun b => BlockType b = ty) blocks <> [] ->
  exists ms,
    cfg !! ty = Some (VObjSlice ms)
    /\ Forall2 (blockConfigOf c) (filter (fun b => BlockType b = ty) blocks) ms
    /\ length ms = length (filter (fun b => BlockType b = ty) blocks).
Proof.
  intros H Hattr Hne. rewrite convertBody_eq in H.
  apply bind_Ok in H as ([cfg1 lcfg1] & Hblocks & H).
  apply bind_Ok in H as ([cfg2 lcfg2] & Hattrs & H). injection H as <- <-.
  destruct (attributes_loop_other c _ _ _ ty Hattrs Hattr) as [Hc _].
  simpl in Hc. rewrite Hc.
  destruct (blocks_loop c _ _ Hblocks ty) as (ms & ls & Hms & _ & Hcfg & _).
  simpl in Hcfg. exists ms. rewrite Hcfg.
  pose proof (Forall2_length _ _ _ Hms) as Hlen.
  split; [|by split].
  destruct ms; [|done]. destruct (filter _ blocks); [done|discriminate].
Qed.

(** Three sibling blocks [a {}]: a three-element sequence, in order. *)
Lemma C1_blocks_collect_witness :
  exists cfg lcfg,
    convertBody (mkConverter ex_a3_src ex_opts) ex_a3_body = Ok (cfg, lcfg)
    /\ exists ms,
        cfg !! "a" = Some (VObjSlice ms)
        /\ Forall2 (blockConfigOf (mkConverter ex_a3_src ex_opts))
             (filter (fun b => BlockType b = "a") (Blocks ex_a3_body)) ms
        /\ length ms
           = length (filter (fun b => BlockType b = "a") (Blocks ex_a3_body)).
Proof.
  eexists _, _. split; [vm_compute; reflexivity|].
  eapply (C1_blocks_collect_in_sequence (mkConverter ex_a3_src ex_opts)
           [] (Blocks ex_a3_body) (ex_range 1 1 0 4 1 15) _ _ "a").
  - reflexivity.
  - apply not_elem_of_nil.
  - vm_compute. discriminate.
Defined.

(** C1, as stated, fails: with exactly one block [a {}] the value tree
    holds under [a] a one-element sequence, not the bare converted body. *)
Lemma C1_blocks_collect_counterexample :
  exists cfg lcfg,
    ConvertFile (mkFile (SyntaxBody ex_a1_body) ex_a1_src) ex_opts = Ok (cfg, lcfg)
    /\ cfg !! "a" = Some (VObjSlice [∅])
    /\ cfg !! "a" <> Some (VJsonObj ∅).
Proof.
  eexists _, _. split; [vm_compute; reflexivity|].
  split; [reflexivity|]. vm_compute. discriminate.
Qed.

(** ** The collision of an attribute with a block *)

(** C3 does not hold of the code.  In the document [a {}], [a = 1] the
    block's entries [[{}]] of the value tree and of the line tree are
    replaced by the attribute's value and record, without an error: the
    attribute loop assigns [cfg[key]] and [lcfg[key]] unconditionally,
    where the block loop looks the key up first. *)
Theorem C3_attribute_overwrites_block :
  let c := mkConverter ex_clash_src ex_opts in
  (exists cfg0 lcfg0 l,
      convertBody c (mkBody [] [ex_a_block 1] (ex_range 1 1 0 3 1 11))
      = Ok (cfg0, lcfg0)
      /\ cfg0 !! "a" = Some (VObjSlice [∅])
      /\ lcfg0 !! "a" = Some (VLineSlice [l]))
  /\ (exists cfg lcfg rec,
         convertBody c ex_clash_body = Ok (cfg, lcfg)
         /\ cfg !! "a" = Some (VCty (CtyNumber 1))
         /\ lcfg !! "a" = Some (VIntMap rec)).
Proof.
  split.
  - eexists _, _, _. split; [vm_compute; reflexivity|]. split; reflexivity.
  - eexists _, _, _. split; [vm_compute; reflexivity|]. split; reflexivity.
Qed.

(** ** Errors inside a reconstructed conditional *)

(** C4 does not hold of the code.  The sequence [${null}] cannot be
    turned into a string; as the body of a template loop its error fails
    the conversion ([convertTemplateFor] returns it).  Inside the true
    branch of a conditional the error is replaced by an empty result with
    a nil error, and inside the false branch it is never looked at: both
    documents convert without error.  No conditional ever returns an
    error.  (When the failing attribute sits inside a block, the caller
    [convertBlock] writes to the nil line map before it tests the error,
    so the conversion panics instead of returning the error.) *)
Theorem C4_conditional_swallows_conversion_error :
  (forall c r, convertStringPart c (ex_null_template r) = Err ErrTemplateDiags)
  /\ ConvertFile (mkFile (SyntaxBody ex_for_body) ex_for_src) ex_opts
     = Err (ErrWrap "convert body" (ErrWrap "convert expression" ErrTemplateDiags))
  /\ (exists lcfg,
         ConvertFile (mkFile (SyntaxBody ex_if_body) ex_if_src) ex_opts
         = Ok ({[ "x" := VStr EmptyString ]}, lcfg))
  /\ (exists lcfg,
         ConvertFile (mkFile (SyntaxBody ex_else_body) ex_else_src) ex_opts
         = Ok ({[ "x" := VStr "%{if flag}A%{endif}" ]}, lcfg))
  /\ (forall c cond t f r e,
         convertStringPart c (ConditionalExpr cond t f r) <> Err e)
  /\ ConvertFile (mkFile (SyntaxBody ex_for_in_block_body) ex_for_in_block_src)
       ex_opts
     = Panic PanicNilMap.
Proof.
  split; [reflexivity|]. split; [vm_compute; reflexivity|].
  split; [eexists; vm_compute; reflexivity|].
  split; [eexists; vm_compute; reflexivity|].
  split; [|vm_compute; reflexivity].
  intros c cond t f r e. simpl. unfold convertTemplateConditionalBody.
  destruct (rangeSource c (ExprRange cond)) as [s|e0|p] eqn:Hr; simpl.
  - destruct (convertStringPart c t); try discriminate.
    destruct (convertStringPart c f); discriminate.
  - unfold rangeSource, parenAt, sliceBytes in Hr.
    repeat (case_match; simpl in Hr; try discriminate).
  - discriminate.
Qed.

(** ** Induction over the syntax tree *)

Section ExpressionInd.
Variable P : Expression -> Prop.
Hypothesis case_Literal : forall v r, P (LiteralValueExpr v r).
Hypothesis case_Template : forall parts r, Forall P parts -> P (TemplateExpr parts r).
Hypothesis case_TemplateWrap : forall w r, P w -> P (TemplateWrapExpr w r).
Hypothesis case_TupleCons : forall es r, Forall P es -> P (TupleConsExpr es r).
Hypothesis case_ObjectCons : forall items r,
  Forall (fun kv => P kv.1 /\ P kv.2) items -> P (ObjectConsExpr items r).
Hypothesis case_ObjectConsKey : forall w r, P w -> P (ObjectConsKeyExpr w r).
Hypothesis case_ScopeTraversal : forall r, P (ScopeTraversalExpr r).
Hypothesis case_Conditional : forall cnd t f r,
  P cnd -> P t -> P f -> P (ConditionalExpr cnd t f r).
Hypothesis case_TemplateJoin : forall t r, P t -> P (TemplateJoinExpr t r).
Hypothesis case_For : forall kv vv coll val r,
  P coll -> P val -> P (ForExpr kv vv coll val r).
Hypothesis case_Other : forall r, P (OtherExpr r).

Fixpoint Expression_nested_ind (e : Expression) : P e :=
  let all := fix all (es : list Expression) : Forall P es :=
    match es with
    | [] => List.Forall_nil _
    | e' :: es' => List.Forall_cons _ _ _ (Expression_nested_ind e') (all es')
    end in
  match e with
  | LiteralValueExpr v r => case_Literal v r
  | TemplateExpr parts r => case_Template parts r (all parts)
  | TemplateWrapExpr w r => case_TemplateWrap w r (Expression_nested_ind w)
  | TupleConsExpr es r => case_TupleCons es r (all es)
  | ObjectConsExpr items r =>
      case_ObjectCons items r
        ((fix items_all (l : list (Expression * Expression))
            : Forall (fun kv => P kv.1 /\ P kv.2) l :=
            match l with
            | [] => List.Forall_nil _
            | (k, v) :: l' =>
                List.Forall_cons (fun kv => P kv.1 /\ P kv.2) (k, v) l'
                  (conj (Expression_nested_ind k) (Expression_nested_ind v))
                  (items_all l')
            end) items)
  | ObjectConsKeyExpr w r => case_ObjectConsKey w r (Expression_nested_ind w)
  | ScopeTraversalExpr r => case_ScopeTraversal r
  | ConditionalExpr cnd t f r =>
      case_Conditional cnd t f r (Expression_nested_ind cnd)
        (Expression_nested_ind t) (Expression_nested_ind f)
  | TemplateJoinExpr t r => case_TemplateJoin t r (Expression_nested_ind t)
  | ForExpr kv vv coll val r =>
      case_For kv vv coll val r (Expression_nested_ind coll)
        (Expression_nested_ind val)
  | OtherExpr r => case_Other r
  end.
End ExpressionInd.

Section BodyInd.
Variable P : Body -> Prop.
Hypothesis case_Body : forall attributes blocks srcRange,
  Forall (fun b => P (BlockBody b)) blocks -> P (mkBody attributes blocks srcRange).

Fixpoint Body_nested_ind (body : Body) : P body :=
  match body with
  | mkBody attributes blocks srcRange =>
      case_Body attributes blocks srcRange
        ((fix all (bs : list Block) : Forall (fun b => P (BlockBody b)) bs :=
            match bs with
            | [] => List.Forall_nil _
            | b :: bs' =>
                List.Forall_cons (fun b => P (BlockBody b)) b bs'
                  (match b as b0 return P (BlockBody b0) with
                   | mkBlock _ _ inner _ => Body_nested_ind inner
                   end)
                  (all bs')
            end) blocks)
  end.
End BodyInd.

(** ** Shape parity *)

Section ParityFacts.
Implicit Types (m lm : obj) (k : string) (v w : value).

Lemma parity_empty : parity (VJsonObj ∅) (VMap ∅).
Proof.
  constructor.
  - intros k. by rewrite lookup_empty.
  - intros k. rewrite lookup_empty. intros []; discriminate.
  - intros k v w _. by rewrite lookup_empty.
Qed.

Lemma parity_insert m lm k v w :
  parity (VJsonObj m) (VMap lm) -> parity v w ->
  parity (VJsonObj (<[k := v]> m)) (VMap (<[k := w]> lm)).
Proof.
  intros Hp Hvw. inversion Hp as [| | |? ? H1 H2 H3|]; subst. constructor.
  - intros k'. rewrite !lookup_insert. case_decide; eauto.
  - intros k'. rewrite !lookup_insert. case_decide; eauto.
  - intros k' v' w' Hk. rewrite !lookup_insert. case_decide; [|by eauto].
    by intros [= <-] [= <-].
Qed.

(** Writing a position field into the line map keeps parity. *)
Lemma parity_position_field m lm k w :
  k ∈ positionKeys ->
  parity (VJsonObj m) (VMap lm) ->
  parity (VJsonObj m) (VMap (<[k := w]> lm)).
Proof.
  intros Hk Hp. inversion Hp as [| | |? ? H1 H2 H3|]; subst. constructor.
  - intros k'. rewrite lookup_insert. case_decide; eauto.
  - intros k'. rewrite lookup_insert. case_decide; [subst; auto|eauto].
  - intros k' v' w' Hk'. rewrite lookup_insert. case_decide; [congruence|eauto].
Qed.

Lemma parity_keyFields m lm nr :
  parity (VJsonObj m) (VMap lm) ->
  parity (VJsonObj m) (VMap (keyFields VInt nr lm)).
Proof.
  intros Hp. unfold keyFields.
  repeat (apply parity_position_field;
          [unfold positionKeys; set_solver|]). done.
Qed.

Lemma parity_bodyFields m lm r :
  parity (VJsonObj m) (VMap lm) ->
  parity (VJsonObj m) (VMap (bodyFields r lm)).
Proof.
  intros Hp. unfold bodyFields.
  repeat (apply parity_position_field;
          [unfold positionKeys; set_solver|]). done.
Qed.

Lemma isRecord_lineInfo sr : isRecord (lineInfo sr).
Proof. unfold isRecord, lineInfo. repeat split; eexists; reflexivity. Qed.

Lemma isRecord_keyFields nr rec : isRecord rec -> isRecord (keyFields id nr rec).
Proof.
  unfold isRecord, keyFields. intros (H1 & H2 & H3).
  repeat split; rewrite !lookup_insert_ne by done; done.
Qed.

Lemma parity_annotateKey nr v w : parity v w -> parity v (annotateKey nr w).
Proof.
  intros Hp. inversion Hp; subst; simpl;
    try (constructor; by apply isRecord_keyFields); done.
Qed.

Lemma parity_labelChain labels m lm :
  parity (VJsonObj m) (VMap lm) ->
  parity (VJsonObj (labelChain VJsonObj labels m))
         (VMap (labelChain VMap labels lm)).
Proof.
  intros Hp. induction labels as [|label rest IH]; simpl; [done|].
  rewrite <- !insert_empty. apply parity_insert; [apply parity_empty|done].
Qed.
End ParityFacts.

Section ExpressionParity.
Variable c : converter.

Lemma objectItems_parity (items : list (Expression * Expression)) :
  Forall (fun kv =>
            forall v l, convertExpression c kv.2 = Ok (v, l) -> parity v l)
         items ->
  forall m0 l0 m l,
    foldM (fun '(m, l) '(KeyExpr, ValueExpr) =>
             key ← convertKey c KeyExpr;
             '(v, ln) ← convertExpression c ValueExpr;
             Ok (<[key := v]> m, <[key := ln]> l)) items (m0, l0) = Ok (m, l) ->
    parity (VJsonObj m0) (VMap l0) -> parity (VJsonObj m) (VMap l).
Proof.
  induction 1 as [|[k e] items Hx _ IH]; intros m0 l0 m l H Hp.
  - simpl in H. by injection H as <- <-.
  - simpl in H. apply bind_Ok in H as ([m1 l1] & H1 & H).
    ok_inv H1. subst. eapply IH; [exact H|].
    apply parity_insert; [done|]. by apply Hx.
Qed.

Lemma convertExpression_parity (e : Expression) (v l : value) :
  convertExpression c e = Ok (v, l) -> parity v l.
Proof.
  revert v l. induction e as
    [val r|parts r _|w r IH|es r _|items r IH|w r _|r|cnd t f r _ _ _|t r _
    |kv vv coll val r _ _|r] using Expression_nested_ind;
    intros v l H; simpl in H;
    try (ok_inv H; subst; constructor; apply isRecord_lineInfo).
  - by apply IH.
  - apply bind_Ok in H as ([m lm] & Hm & H). injection H as <- <-.
    eapply objectItems_parity; [|exact Hm|apply parity_empty].
    eapply Forall_impl; [exact IH|]. by intros kv [_ ?].
Qed.
End ExpressionParity.

Section BodyParity.
Variable c : converter.

Lemma blocks_parity (bs : list Block) :
  Forall (fun b => bodyParity c (BlockBody b)) bs ->
  forall ms ls,
    Forall2 (blockConfigOf c) bs ms -> Forall2 (lineCfgOf c) bs ls ->
    Forall2 (fun m l => parity (VJsonObj m) (VMap l)) ms ls.
Proof.
  induction 1 as [|b bs Hb _ IH]; intros ms ls Hms Hls.
  - apply Forall2_nil_inv_l in Hms as ->. apply Forall2_nil_inv_l in Hls as ->.
    constructor.
  - apply Forall2_cons_inv_l in Hms as (m & ms' & (v & bl & Hv & ->) & Hms & ->).
    apply Forall2_cons_inv_l in Hls as (l & ls' & (v' & bl' & Hv' & ->) & Hls & ->).
    rewrite Hv in Hv'. injection Hv' as <- <-.
    constructor; [|by apply IH].
    apply parity_labelChain, parity_keyFields. by apply Hb.
Qed.

Lemma blocksState_parity (blocks : list Block) (cfg lcfg : obj) :
  Forall (fun b => bodyParity c (BlockBody b)) blocks ->
  blocksState c blocks cfg lcfg ->
  parity (VJsonObj cfg) (VMap lcfg).
Proof.
  intros Hall Hst.
  assert (forall ty, exists ms ls,
             Forall2 (fun m l => parity (VJsonObj m) (VMap l)) ms ls
             /\ cfg !! ty = sliceEntry VObjSlice ms
             /\ lcfg !! ty = sliceEntry VLineSlice ls) as Hty.
  { intros ty. destruct (Hst ty) as (ms & ls & Hms & Hls & Hc & Hl).
    exists ms, ls. split; [|done].
    eapply blocks_parity; [|exact Hms|exact Hls].
    apply Forall_forall. intros b Hin. apply list_elem_of_filter in Hin as [_ Hin].
    rewrite Forall_forall in Hall. by apply Hall. }
  constructor.
  - intros k. destruct (Hty k) as (ms & ls & H2 & -> & ->).
    destruct H2; simpl; [intros []; discriminate|eauto].
  - intros k. destruct (Hty k) as (ms & ls & H2 & -> & ->).
    destruct H2; simpl; [intros []; discriminate|eauto].
  - intros k v w _. destruct (Hty k) as (ms & ls & H2 & -> & ->).
    destruct H2 as [|m l ms ls Hml H2]; simpl; [discriminate|].
    intros [= <-] [= <-]. constructor. by constructor.
Qed.

Lemma attributes_parity (attributes : list (string * Attribute))
      (acc acc' : obj * obj) :
  foldM (convertAttribute c) attributes acc = Ok acc' ->
  parity (VJsonObj acc.1) (VMap acc.2) ->
  parity (VJsonObj acc'.1) (VMap acc'.2).
Proof.
  revert acc; induction attributes as [|[key a] attributes IH];
    intros [cfg lcfg] H Hp; simpl in H.
  - by injection H as <-.
  - apply bind_Ok in H as ([cfg1 lcfg1] & Hstep & H).
    apply (IH _ H). ok_inv Hstep. subst. simpl.
    apply parity_insert; [done|].
    apply wrapErr_Ok in Hm.
    by apply parity_annotateKey, (convertExpression_parity c (Expr a)).
Qed.

Lemma convertBody_parity (body : Body) : bodyParity c body.
Proof.
  induction body as [attributes blocks srcRange IH] using Body_nested_ind.
  intros cfg lcfg H. rewrite convertBody_eq in H.
  apply bind_Ok in H as ([cfg1 lcfg1] & Hblocks & H).
  apply bind_Ok in H as ([cfg2 lcfg2] & Hattrs & H). injection H as <- <-.
  apply parity_bodyFields.
  apply (attributes_parity _ _ _ Hattrs). simpl.
  eapply blocksState_parity; [exact IH|].
  exact (blocks_loop c _ _ Hblocks).
Qed.
End BodyParity.

(** C5 (amended).  For every document that converts, the value tree and
    the line tree are in parity: every key of a value map is a key of the
    line map at the same place, and the line map has no further keys but
    position keys ([line], [startIndex], [endIndex] and the [__key__]
    fields); under a key that is not a position key, a scalar, a string
    and a tuple go with one positional record, a map goes with a map in
    parity, and a sequence of blocks goes with a sequence of the same
    length, in parity element by element. *)
Theorem C5_shape_parity (file : hclFile) (opts : Options) (cfg lcfg : obj) :
  ConvertFile file opts = Ok (cfg, lcfg) ->
  parity (VJsonObj cfg) (VMap lcfg)
  /\ (forall k, is_Some (cfg !! k) -> is_Some (lcfg !! k))
  /\ (forall k ms, k ∉ positionKeys -> cfg !! k = Some (VObjSlice ms) ->
                   exists ls, lcfg !! k = Some (VLineSlice ls)
                              /\ length ls = length ms).
Proof.
  unfold ConvertFile. destruct (FileBody file) as [body|]; [|discriminate].
  intros H. apply wrapErr_Ok in H.
  pose proof (convertBody_parity _ body cfg lcfg H) as Hp.
  split; [exact Hp|].
  inversion Hp as [| | |? ? H1 H2 H3|]; subst. split; [exact H1|].
  intros k ms Hk Hc. destruct (H1 k) as [w Hw]; [by eexists|].
  pose proof (H3 k _ _ Hk Hc Hw) as Hkw. inversion Hkw as [| | | |? ls HF]; subst.
  exists ls. split; [done|]. symmetry. by eapply Forall2_length.
Qed.

(** The document [db 'mysql' 'primary' { x = 1 }]. *)
Lemma C5_shape_parity_witness :
  exists cfg lcfg,
    ConvertFile (mkFile (SyntaxBody ex_db_body) ex_db_src) ex_opts = Ok (cfg, lcfg)
    /\ parity (VJsonObj cfg) (VMap lcfg)
    /\ (forall k, is_Some (cfg !! k) -> is_Some (lcfg !! k))
    /\ (forall k ms, k ∉ positionKeys -> cfg !! k = Some (VObjSlice ms) ->
                     exists ls, lcfg !! k = Some (VLineSlice ls)
                                /\ length ls = length ms).
Proof.
  eexists _, _. split; [vm_compute; reflexivity|].
  apply (C5_shape_parity (mkFile (SyntaxBody ex_db_body) ex_db_src) ex_opts).
  reflexivity.
Defined.

(** C5, as stated, fails: the two-element sequence under [x] goes with a
    single positional record, not with a sequence of length two; and the
    top-level maps do not have the same keys, the line map alone having
    [line]. *)
Lemma C5_shape_parity_counterexample :
  exists cfg lcfg rec,
    ConvertFile (mkFile (SyntaxBody ex_tuple_body) ex_tuple_src) ex_opts
    = Ok (cfg, lcfg)
    /\ cfg !! "x" = Some (VSlice [VCty (CtyNumber 1); VCty (CtyNumber 2)])
    /\ lcfg !! "x" = Some (VIntMap rec)
    /\ cfg !! "line" = None
    /\ lcfg !! "line" = Some (VInt 1).
Proof.
  eexists _, _, _. split; [vm_compute; reflexivity|]. repeat split.
Qed.

(** ** Determinism *)

Lemma sameDocument_sym (b1 : Body) :
  forall b2, sameDocument b1 b2 -> sameDocument b2 b1.
Proof.
  induction b1 as [attrs1 blocks1 r IH] using Body_nested_ind.
  intros b2 H. inversion H as [? attrs2 ? blocks2 ? Hp HF]; subst.
  constructor; [done|].
  clear H. induction HF as [|x y l l' (Ht & Hl & Hr & Hs) HF IHF].
  - constructor.
  - apply Forall_cons in IH as [IHx IH]. constructor; [|by apply IHF].
    repeat split; try done. by apply IHx.
Qed.

Lemma sameDocument_wf (b1 : Body) :
  forall b2, sameDocument b1 b2 -> wfBody b1 -> wfBody b2.
Proof.
  induction b1 as [attrs1 blocks1 r IH] using Body_nested_ind.
  intros b2 H Hwf. inversion H as [? attrs2 ? blocks2 ? Hp HF]; subst.
  inversion Hwf as [? ? ? Hnd Hall]; subst.
  constructor; [by rewrite <- Hp|].
  clear H Hwf. induction HF as [|x y l l' (Ht & Hl & Hr & Hs) HF IHF].
  - constructor.
  - apply Forall_cons in IH as [IHx IH]. apply Forall_cons in Hall as [Hx Hall].
    constructor; [by apply IHx|by apply IHF].
Qed.

Section Determinism.
Variable c : converter.

(** Two rounds of the attribute loop under different keys commute. *)
Lemma convertAttribute_swap (acc acc' : obj * obj) (x y : string * Attribute) :
  x.1 <> y.1 ->
  convertAttribute c acc x ≫= (fun a => convertAttribute c a y) = Ok acc' ->
  convertAttribute c acc y ≫= (fun a => convertAttribute c a x) = Ok acc'.
Proof.
  destruct acc as [cfg lcfg], x as [kx ax], y as [ky ay]. simpl. intros Hne H.
  apply bind_Ok in H as ([cfg1 lcfg1] & Hx & H).
  apply bind_Ok in Hx as ([vx lx] & Hex & Hx). injection Hx as <- <-.
  apply bind_Ok in H as ([vy ly] & Hey & H). injection H as <-.
  rewrite Hey. simpl. rewrite Hex. simpl.
  by rewrite (insert_insert_ne cfg), (insert_insert_ne lcfg).
Qed.

Lemma attributes_perm (attrs1 attrs2 : list (string * Attribute)) :
  attrs1 ≡ₚ attrs2 -> NoDup attrs1.*1 ->
  forall acc r,
    foldM (convertAttribute c) attrs1 acc = Ok r ->
    foldM (convertAttribute c) attrs2 acc = Ok r.
Proof.
  induction 1 as [|x l l' Hp IH|x y l|l l' l'' Hp1 IH1 Hp2 IH2];
    intros Hnd acc r H.
  - done.
  - rewrite fmap_cons in Hnd. apply NoDup_cons in Hnd as [_ Hnd].
    simpl in *. apply bind_Ok in H as (a & Hx & H).
    rewrite Hx. simpl. by apply IH.
  - rewrite !fmap_cons in Hnd. apply NoDup_cons in Hnd as [Hy _].
    apply not_elem_of_cons in Hy as [Hne _].
    simpl in *. apply bind_Ok in H as (a & Hx & H).
    apply bind_Ok in H as (a' & Hy & H).
    assert (convertAttribute c acc x ≫= (fun a => convertAttribute c a y)
            = Ok a') as Hxy.
    { apply convertAttribute_swap; [congruence|]. by rewrite Hx. }
    apply bind_Ok in Hxy as (a0 & -> & Hxy). simpl. by rewrite Hxy.
  - apply IH2; [by rewrite <- Hp1|]. by apply IH1.
Qed.

Lemma blockStep_same (b1 b2 : Block) (acc r : obj * obj) :
  BlockType b1 = BlockType b2 -> Labels b1 = Labels b2 ->
  TypeRange b1 = TypeRange b2 ->
  (forall r', convertBody c (BlockBody b1) = Ok r' ->
              convertBody c (BlockBody b2) = Ok r') ->
  blockStep c acc b1 = Ok r -> blockStep c acc b2 = Ok r.
Proof.
  intros Ht Hl Hr Hb H. unfold blockStep in *.
  apply bind_Ok in H as ([bcfg blcfg] & Hblk & H).
  pose proof Hblk as Hblk'. apply wrapErr_Ok in Hblk'.
  destruct (convertBlock_fresh_Ok c b1 _ Hblk') as (v & bl & Hv).
  rewrite (convertBlock_fresh c b1 v bl Hv) in Hblk.
  rewrite (convertBlock_fresh c b2 v bl (Hb _ Hv)).
  rewrite <- Ht, <- Hl, <- Hr, Hblk. exact H.
Qed.

Lemma blocks_same (blocks1 blocks2 : list Block) :
  Forall (fun b => sameResult c (BlockBody b)) blocks1 ->
  Forall (fun b => wfBody (BlockBody b)) blocks1 ->
  Forall2 (fun b1 b2 =>
             BlockType b1 = BlockType b2 /\ Labels b1 = Labels b2
             /\ TypeRange b1 = TypeRange b2
             /\ sameDocument (BlockBody b1) (BlockBody b2))
          blocks1 blocks2 ->
  forall acc r,
    foldM (blockStep c) blocks1 acc = Ok r ->
    foldM (blockStep c) blocks2 acc = Ok r.
Proof.
  intros HIH Hwf HF. induction HF as [|x y l l' (Ht & Hl & Hr & Hs) HF IHF];
    intros acc r H; [done|].
  apply Forall_cons in HIH as [IHx HIH]. apply Forall_cons in Hwf as [Hx Hwf].
  simpl in *. apply bind_Ok in H as (a & Hstep & H).
  rewrite (blockStep_same x y acc a Ht Hl Hr); [|by apply IHx|done].
  simpl. by apply IHF.
Qed.

Lemma convertBody_same (b1 : Body) : sameResult c b1.
Proof.
  induction b1 as [attrs1 blocks1 r IH] using Body_nested_ind.
  intros b2 H Hwf res Hres. inversion H as [? attrs2 ? blocks2 ? Hp HF]; subst.
  inversion Hwf as [? ? ? Hnd Hall]; subst.
  rewrite convertBody_eq in *.
  apply bind_Ok in Hres as (acc & Hblocks & Hres).
  rewrite (blocks_same _ _ IH Hall HF _ _ Hblocks). simpl.
  apply bind_Ok in Hres as ([cfg lcfg] & Hattrs & Hres).
  by rewrite (attributes_perm _ _ Hp Hnd _ _ Hattrs).
Qed.
End Determinism.

(** C9.  Two runs of the conversion on the same document, which can
    differ only in the order in which each body's attribute map is
    visited, give the same result: when one run produces the two trees,
    the other produces the same two trees, and so the same serialized
    bytes, whatever the serializer; this includes bodies with two or more
    attributes. *)
Theorem C9_conversion_is_deterministic (marshal : value -> result string)
    (b1 b2 : Body) (src : string) (opts : Options) :
  wfBody b1 -> sameDocument b1 b2 ->
  (forall trees,
      ConvertFile (mkFile (SyntaxBody b1) src) opts = Ok trees
      <-> ConvertFile (mkFile (SyntaxBody b2) src) opts = Ok trees)
  /\ (forall out,
         File marshal (mkFile (SyntaxBody b1) src) opts = Ok out
         <-> File marshal (mkFile (SyntaxBody b2) src) opts = Ok out).
Proof.
  intros Hwf Hs.
  assert (forall trees,
             ConvertFile (mkFile (SyntaxBody b1) src) opts = Ok trees
             <-> ConvertFile (mkFile (SyntaxBody b2) src) opts = Ok trees) as Hc.
  { intros trees. unfold ConvertFile. simpl. rewrite !wrapErr_Ok. split.
    - by apply convertBody_same.
    - apply convertBody_same; [by apply sameDocument_sym|].
      by apply (sameDocument_wf b1). }
  split; [exact Hc|].
  intros out. unfold File. split; intros H.
  - apply bind_Ok in H as (trees & Ht & H). apply wrapErr_Ok in Ht.
    apply Hc in Ht. by rewrite Ht.
  - apply bind_Ok in H as (trees & Ht & H). apply wrapErr_Ok in Ht.
    apply Hc in Ht. by rewrite Ht.
Qed.

(** The document [a = 1], [b = 2], visited as [a, b] and as [b, a]. *)
Lemma C9_conversion_witness :
  isOk (File ex_marshal (mkFile (SyntaxBody ex_ab_body) ex_ab_src) ex_opts) = true
  /\ (forall trees,
         ConvertFile (mkFile (SyntaxBody ex_ab_body) ex_ab_src) ex_opts = Ok trees
         <-> ConvertFile (mkFile (SyntaxBody ex_ba_body) ex_ab_src) ex_opts
             = Ok trees)
  /\ (forall out,
         File ex_marshal (mkFile (SyntaxBody ex_ab_body) ex_ab_src) ex_opts = Ok out
         <-> File ex_marshal (mkFile (SyntaxBody ex_ba_body) ex_ab_src) ex_opts
             = Ok out).
Proof.
  split; [vm_compute; reflexivity|].
  apply (C9_conversion_is_deterministic ex_marshal ex_ab_body ex_ba_body).
  - constructor; [|constructor]. simpl.
    apply NoDup_cons. split; [by apply not_elem_of_cons; split;
                                [discriminate|apply not_elem_of_nil]|].
    apply NoDup_singleton.
  - constructor; [apply perm_swap|constructor].
Defined.

(** * Further properties of the converter *)

(** ** Which errors expression conversion raises *)

Section ExpressionErrors.
Variable c : converter.

Lemma rangeSource_not_Err (r : Range) (e : error) : rangeSource c r <> Err e.
Proof.
  unfold rangeSource, parenAt, sliceBytes. intros H.
  repeat (case_match; simpl in H; try discriminate).
Qed.

Lemma wrapExpr_not_Err (expr : Expression) (e : error) : wrapExpr c expr <> Err e.
Proof.
  unfold wrapExpr. intros H.
  destruct (rangeSource c (ExprRange expr)) eqn:Hr; try discriminate.
  injection H as ->. by apply rangeSource_not_Err in Hr.
Qed.

Lemma templateValue_Err (vals : list cty) (e : error) :
  templateValue vals = Err e -> e = ErrTemplateDiags.
Proof.
  destruct vals as [|v vals]; simpl; [discriminate|].
  destruct (templatePartValue v); [destruct (templateValue vals)|]; congruence.
Qed.

(** An error of the builder loop is the error of one of the parts. *)
Lemma builder_Err (f : Expression -> result string) (parts : list Expression)
      (acc : string) (e : error) :
  foldM (fun builder part => s ← f part; Ok (builder +:+ s)) parts acc = Err e ->
  exists part, part ∈ parts /\ f part = Err e.
Proof.
  revert acc; induction parts as [|p parts IH]; intros acc H; simpl in H;
    [discriminate|].
  destruct (f p) as [s|e'|] eqn:Hp; simpl in H; try discriminate.
  - destruct (IH _ H) as (part & Hin & Hpart). exists part. split; [|done].
    by apply list_elem_of_further.
  - injection H as ->. exists p. split; [apply list_elem_of_here|done].
Qed.

Lemma convertStringPart_Err_strong (e : Expression) :
  (forall err, convertStringPart c e = Err err -> isValueError err)
  /\ match e with
     | ForExpr _ _ _ val _ =>
         forall err, convertStringPart c val = Err err -> isValueError err
     | _ => True
     end.
Proof.
  induction e as
    [val r|parts r IH|w r [IH _]|es r _|items r _|w r _|r|cnd t f r _ _ _|t r IH
    |kv vv coll val r _ [IH _]|r] using Expression_nested_ind;
    (split; [intros err H; simpl in H|try exact I]);
    try (by apply wrapExpr_not_Err in H).
  - destruct val; simpl in H; try discriminate. injection H as <-. by left.
  - unfold convertTemplateBody in H.
    destruct (IsStringLiteral parts).
    + apply templateValue_Err in H as ->. by right.
    + apply builder_Err in H as (part & Hin & Hpart).
      rewrite Forall_forall in IH. by apply (IH part Hin).
  - by apply IH.
  - exfalso. unfold convertTemplateConditionalBody in H.
    destruct (rangeSource c (ExprRange cnd)) eqn:Hr; simpl in H;
      [|by apply rangeSource_not_Err in Hr|discriminate].
    destruct (convertStringPart c t); try discriminate.
    destruct (convertStringPart c f); discriminate.
  - destruct t; try discriminate. destruct IH as [_ IH].
    unfold convertTemplateForBody in H.
    destruct (rangeSource c (ExprRange t1)) eqn:Hr; simpl in H;
      [|by apply rangeSource_not_Err in Hr|discriminate].
    destruct (convertStringPart c t2) eqn:Hv; simpl in H; try discriminate.
    injection H as ->. by apply IH.
  - exact IH.
Qed.

Lemma convertStringPart_Err (e : Expression) (err : error) :
  convertStringPart c e = Err err -> isValueError err.
Proof. apply convertStringPart_Err_strong. Qed.

Lemma convertKey_Err (e : Expression) (err : error) :
  convertKey c e = Err err -> isValueError err.
Proof.
  unfold convertKey.
  destruct e as [| | | | |w r| | | | |]; try apply convertStringPart_Err.
  destruct w; try apply convertStringPart_Err.
  intros H. by apply rangeSource_not_Err in H.
Qed.

Lemma collectM_Err {A B} (f : A -> result B) (l : list A) (e : error) :
  collectM f l = Err e -> exists x, x ∈ l /\ f x = Err e.
Proof.
  induction l as [|x l IH]; simpl; [discriminate|].
  destruct (f x) as [y|e'|] eqn:Hx; simpl; try discriminate.
  - destruct (collectM f l); simpl; try discriminate.
    intros [= ->]. destruct (IH eq_refl) as (x' & Hin & Hx').
    exists x'. split; [by apply list_elem_of_further|done].
  - intros [= ->]. exists x. split; [apply list_elem_of_here|done].
Qed.

Lemma foldM_Err {A S} (step : S -> A -> result S) (l : list A) (s : S)
      (e : error) :
  foldM step l s = Err e -> exists x s', x ∈ l /\ step s' x = Err e.
Proof.
  revert s; induction l as [|x l IH]; intros s; simpl; [discriminate|].
  destruct (step s x) as [s1|e'|] eqn:Hx; simpl; try discriminate.
  - intros H. destruct (IH _ H) as (x' & s' & Hin & Hx').
    exists x', s'. split; [by apply list_elem_of_further|done].
  - intros [= ->]. exists x, s. split; [apply list_elem_of_here|done].
Qed.

Lemma convertExpression_Err (e : Expression) (err : error) :
  convertExpression c e = Err err -> isValueError err.
Proof.
  revert err. induction e as
    [val r|parts r _|w r IH|es r IH|items r IH|w r _|r|cnd t f r _ _ _|t r _
    |kv vv coll val r _ _|r] using Expression_nested_ind;
    intros err H; simpl in H; try discriminate;
    try (destruct (wrapExpr c _) eqn:Hw; simpl in H; try discriminate;
         injection H as ->; by apply wrapExpr_not_Err in Hw).
  - destruct (convertTemplate c parts) eqn:Ht; simpl in H; try discriminate.
    injection H as ->.
    by apply (convertStringPart_Err (TemplateExpr parts r)).
  - by apply IH.
  - destruct (collectM _ es) eqn:Hc; simpl in H; try discriminate.
    injection H as ->. apply collectM_Err in Hc as (x & Hin & Hx).
    rewrite Forall_forall in IH. apply (IH x Hin). cbv beta in Hx.
    destruct (convertExpression c x) as [[]| |]; simpl in Hx;
      try discriminate. by injection Hx as ->.
  - destruct (foldM _ items _) as [[]| |] eqn:Hf; simpl in H; try discriminate.
    injection H as ->. apply foldM_Err in Hf as ([k v] & [m l] & Hin & Hx).
    cbv beta iota in Hx.
    destruct (convertKey c k) eqn:Hk; simpl in Hx; try discriminate.
    + rewrite Forall_forall in IH. apply (proj2 (IH _ Hin)). simpl.
      destruct (convertExpression c v) as [[]| |]; simpl in Hx;
        try discriminate. by injection Hx as ->.
    + injection Hx as ->. by apply convertKey_Err in Hk.
Qed.
End ExpressionErrors.

(** X1.  An error of [convertStringPart], [convertKey] or
    [convertExpression] is always one of the two bare value-conversion
    errors: no frame of the expression converter adds context to it. *)
Theorem X1_expression_errors_are_bare (c : converter) (e : Expression)
    (err : error) :
  (convertStringPart c e = Err err -> isValueError err)
  /\ (convertKey c e = Err err -> isValueError err)
  /\ (convertExpression c e = Err err -> isValueError err).
Proof.
  split; [apply convertStringPart_Err|].
  split; [apply convertKey_Err|apply convertExpression_Err].
Qed.

(** The sequence [${null}] as a string part. *)
Lemma X1_expression_errors_witness : isValueError ErrTemplateDiags.
Proof.
  exact (proj1 (X1_expression_errors_are_bare (mkConverter ex_if_src ex_opts)
                  (ex_null_template (ex_range 1 1 0 1 1 0)) ErrTemplateDiags)
               eq_refl).
Defined.

(** ** Where the errors and panics of a body come from *)

Section BodyErrors.
Variable c : converter.

(** [convertBlock] on fresh maps, by the outcome of the body. *)
Lemma nestLabels_fresh_eq blockType allLabels body typeRange labels :
  forall key,
    nestLabels blockType allLabels (finishBlock c body typeRange)
      key labels ∅ ∅
    = match convertBody c body with
      | Ok (v, bl) =>
          Ok ({[ key := VJsonObj (labelChain VJsonObj labels v) ]},
              {[ key := VMap (labelChain VMap labels
                                (keyFields VInt typeRange bl)) ]})
      | Err _ => Panic PanicNilMap
      | Panic p => Panic p
      end.
Proof.
  induction labels as [|label rest IH]; intros key; simpl.
  - unfold finishBlock, mergeAtKey. rewrite !lookup_empty.
    destruct (convertBody c body) as [[v bl]| |]; [|done|done].
    by rewrite !insert_empty.
  - rewrite lookup_empty, IH.
    destruct (convertBody c body) as [[v bl]| |]; simpl; [|done|done].
    by rewrite !insert_empty.
Qed.

Lemma convertBlock_fresh_eq block :
  convertBlock c block ∅ ∅
  = match convertBody c (BlockBody block) with
    | Ok (v, bl) =>
        Ok ({[ BlockType block :=
                 VJsonObj (labelChain VJsonObj (Labels block) v) ]},
            {[ BlockType block :=
                 VMap (labelChain VMap (Labels block)
                         (keyFields VInt (TypeRange block) bl)) ]})
    | Err _ => Panic PanicNilMap
    | Panic p => Panic p
    end.
Proof.
  destruct block as [ty labels body tr].
  unfold BlockBody, BlockType, Labels, TypeRange.
  rewrite convertBlock_eq. apply nestLabels_fresh_eq.
Qed.

Lemma appendBlock_not_Err ty m l acc e : appendBlock ty m l acc <> Err e.
Proof.
  destruct acc as [cfg lcfg]. unfold appendBlock.
  destruct (cfg !! ty) as [[]|]; simpl; try discriminate.
  destruct (lcfg !! ty) as [[]|]; simpl; discriminate.
Qed.

Lemma blockStep_eq acc b :
  blockStep c acc b
  = match convertBody c (BlockBody b) with
    | Ok (v, bl) =>
        appendBlock (BlockType b)
          (labelChain VJsonObj (Labels b) v)
          (labelChain VMap (Labels b) (keyFields VInt (TypeRange b) bl)) acc
    | Err _ => Panic PanicNilMap
    | Panic p => Panic p
    end.
Proof.
  unfold blockStep. rewrite convertBlock_fresh_eq.
  destruct (convertBody c (BlockBody b)) as [[v bl]| |]; [|done|done].
  unfold wrapErr, mbind, result_bind. by rewrite !lookup_singleton_eq.
Qed.

Lemma blockStep_not_Err acc b e : blockStep c acc b <> Err e.
Proof.
  rewrite blockStep_eq.
  destruct (convertBody c (BlockBody b)) as [[v bl]| |]; try discriminate.
  apply appendBlock_not_Err.
Qed.

Lemma convertBody_Err body e :
  convertBody c body = Err e ->
  exists k a e',
    (k, a) ∈ Attributes body
    /\ convertExpression c (Expr a) = Err e'
    /\ isValueError e'
    /\ e = ErrWrap "convert expression" e'.
Proof.
  destruct body as [attributes blocks srcRange]. rewrite convertBody_eq.
  destruct (foldM (blockStep c) blocks _) as [acc|e0|] eqn:Hb; simpl;
    [|intros _|discriminate].
  - destruct (foldM (convertAttribute c) attributes acc) as [[]|e1|] eqn:Ha;
      simpl; try discriminate.
    intros [= ->]. apply foldM_Err in Ha as ([k a] & [cfg lcfg] & Hin & Hx).
    simpl in Hx.
    destruct (convertExpression c (Expr a)) as [[]|e'|] eqn:He; simpl in Hx;
      try discriminate.
    injection Hx as <-. exists k, a, e'. repeat split; try done.
    by apply (convertExpression_Err c (Expr a)).
  - apply foldM_Err in Hb as (b & acc & _ & Hx). by apply blockStep_not_Err in Hx.
Qed.

(** Under the invariant of the block loop the merge succeeds. *)
Lemma appendBlock_Ok pre cfg lcfg ty m l :
  blocksState c pre cfg lcfg ->
  exists acc', appendBlock ty m l (cfg, lcfg) = Ok acc'.
Proof.
  intros Hst. destruct (Hst ty) as (ms & ls & Hms & Hls & Hc & Hl).
  pose proof (Forall2_length _ _ _ Hms) as Hlen1.
  pose proof (Forall2_length _ _ _ Hls) as Hlen2.
  unfold appendBlock. rewrite Hc, Hl.
  destruct ms as [|m0 ms]; destruct ls as [|l0 ls]; simpl in *;
    try (rewrite Hlen1 in Hlen2; discriminate); eauto.
Qed.

Lemma blocks_loop_Panic blocks :
  forall pre cfg lcfg p,
    blocksState c pre cfg lcfg ->
    foldM (blockStep c) blocks (cfg, lcfg) = Panic p ->
    exists b, b ∈ blocks /\ convertBlock c b ∅ ∅ = Panic p.
Proof.
  induction blocks as [|b blocks IH]; intros pre cfg lcfg p Hst H;
    simpl in H; [discriminate|].
  destruct (blockStep c (cfg, lcfg) b) as [[cfg1 lcfg1]|e|p'] eqn:Hstep;
    simpl in H.
  - pose proof (blocksState_step c _ _ _ _ _ Hst Hstep) as Hst'.
    destruct (IH _ _ _ _ Hst' H) as (b' & Hin & Hb').
    exists b'. split; [by apply list_elem_of_further|done].
  - discriminate.
  - injection H as ->. exists b. split; [apply list_elem_of_here|].
    rewrite blockStep_eq in Hstep. rewrite convertBlock_fresh_eq.
    destruct (convertBody c (BlockBody b)) as [[v bl]| |]; try done.
    destruct (appendBlock_Ok _ _ _ (BlockType b)
                (labelChain VJsonObj (Labels b) v)
                (labelChain VMap (Labels b) (keyFields VInt (TypeRange b) bl))
                Hst) as [acc' Hacc].
    rewrite Hacc in Hstep. discriminate.
Qed.

Lemma foldM_Panic {A S} (step : S -> A -> result S) (l : list A) (s : S)
      (p : panic) :
  foldM step l s = Panic p -> exists x s', x ∈ l /\ step s' x = Panic p.
Proof.
  revert s; induction l as [|x l IH]; intros s; simpl; [discriminate|].
  destruct (step s x) as [s1|e'|p'] eqn:Hx; simpl; try discriminate.
  - intros H. destruct (IH _ H) as (x' & s' & Hin & Hx').
    exists x', s'. split; [by apply list_elem_of_further|done].
  - intros [= ->]. exists x, s. split; [apply list_elem_of_here|done].
Qed.

Lemma convertBody_Panic_step attributes blocks srcRange p :
  convertBody c (mkBody attributes blocks srcRange) = Panic p ->
  (exists b, b ∈ blocks /\ convertBlock c b ∅ ∅ = Panic p)
  \/ (exists k a, (k, a) ∈ attributes
                  /\ convertExpression c (Expr a) = Panic p).
Proof.
  rewrite convertBody_eq.
  destruct (foldM (blockStep c) blocks _) as [acc|e0|p0] eqn:Hb; simpl;
    [|discriminate|].
  - destruct (foldM (convertAttribute c) attributes acc) as [[]|e1|p1] eqn:Ha;
      simpl; try discriminate.
    intros [= ->]. right.
    apply foldM_Panic in Ha as ([k a] & [cfg lcfg] & Hin & Hx). simpl in Hx.
    destruct (convertExpression c (Expr a)) as [[]|e'|] eqn:He; simpl in Hx;
      try discriminate.
    injection Hx as <-. by exists k, a.
  - intros [= ->]. left. eapply (blocks_loop_Panic blocks []); [|exact Hb].
    intros ty. exists [], []. rewrite filter_nil, !lookup_empty.
    repeat split; constructor.
Qed.

Lemma convertBody_Panic body :
  forall p, convertBody c body = Panic p ->
            p = PanicNilMap
            \/ exists a, attributeOf a body
                         /\ convertExpression c (Expr a) = Panic p.
Proof.
  induction body as [attributes blocks srcRange IH] using Body_nested_ind.
  intros p H. apply convertBody_Panic_step in H as [(b & Hin & Hb)|(k & a & Hin & Ha)].
  - rewrite convertBlock_fresh_eq in Hb.
    destruct (convertBody c (BlockBody b)) as [[v bl]| |] eqn:Hbody;
      try discriminate.
    + injection Hb as <-. by left.
    + injection Hb as ->. rewrite Forall_forall in IH.
      destruct (IH b Hin _ Hbody) as [->|(a & Ha & Hp)]; [by left|].
      right. exists a. split; [|done]. by eapply attributeOf_block.
  - right. exists a. split; [|done]. by eapply attributeOf_here.
Qed.
End BodyErrors.

(** X2.  When [convertBody] returns an error, the error is that of the
    expression of one of the body's own attributes, a bare value-conversion
    error under the single context [convert expression]: the context
    [convert block] never occurs. *)
Theorem X2_body_error_is_own_attribute (c : converter) (body : Body)
    (e : error) :
  convertBody c body = Err e ->
  exists k a e',
    (k, a) ∈ Attributes body
    /\ convertExpression c (Expr a) = Err e'
    /\ isValueError e'
    /\ e = ErrWrap "convert expression" e'.
Proof. apply convertBody_Err. Qed.

(** The document [x = '%{for v in vs}${null}%{endfor}']. *)
Lemma X2_body_error_witness :
  exists k a e',
    (k, a) ∈ Attributes ex_for_body
    /\ convertExpression (mkConverter ex_for_src ex_opts) (Expr a) = Err e'
    /\ isValueError e'
    /\ ErrWrap "convert expression" ErrTemplateDiags
       = ErrWrap "convert expression" e'.
Proof.
  exact (X2_body_error_is_own_attribute (mkConverter ex_for_src ex_opts)
           ex_for_body (ErrWrap "convert expression" ErrTemplateDiags) eq_refl).
Defined.

(** X3.  [convertBlock] on fresh maps never returns an error: when the
    conversion of the block's body fails with an error, the call panics on
    the write to the nil line map. *)
Theorem X3_block_body_error_panics (c : converter) (block : Block) :
  (forall e, convertBlock c block ∅ ∅ <> Err e)
  /\ (forall e, convertBody c (BlockBody block) = Err e ->
                convertBlock c block ∅ ∅ = Panic PanicNilMap).
Proof.
  rewrite convertBlock_fresh_eq.
  destruct (convertBody c (BlockBody block)) as [[v bl]| |];
    split; intros; congruence.
Qed.

(** The block [b { x = '%{for v in vs}${null}%{endfor}' }]. *)
Lemma X3_block_body_error_witness :
  convertBlock (mkConverter ex_for_in_block_src ex_opts)
    (mkBlock "b" [] (mkBody [ex_for_attr 2 4] [] (ex_range 1 3 2 3 2 42))
       (ex_range 1 1 0 1 2 1)) ∅ ∅
  = Panic PanicNilMap.
Proof.
  exact (proj2 (X3_block_body_error_panics
                  (mkConverter ex_for_in_block_src ex_opts)
                  (mkBlock "b" []
                     (mkBody [ex_for_attr 2 4] [] (ex_range 1 3 2 3 2 42))
                     (ex_range 1 1 0 1 2 1)))
               (ErrWrap "convert expression" ErrTemplateDiags) eq_refl).
Defined.

(** X4.  When [convertBody] panics, the panic is either the write to a nil
    line map or the panic of the conversion of the expression of an
    attribute somewhere in the body: the unchecked type assertions of the
    block loop never fail. *)
Theorem X4_body_panic_origin (c : converter) (body : Body) (p : panic) :
  convertBody c body = Panic p ->
  p = PanicNilMap
  \/ exists a, attributeOf a body /\ convertExpression c (Expr a) = Panic p.
Proof. apply convertBody_Panic. Qed.

(** [x = 'a${null}'] inside a block: the literal [null] as a part of a
    template of two parts panics in [AsString]. *)
Lemma X4_body_panic_witness :
  PanicNullAsString = PanicNilMap
  \/ exists a,
      attributeOf a ex_null_part_body
      /\ convertExpression (mkConverter ex_null_part_src ex_opts) (Expr a)
         = Panic PanicNullAsString.
Proof.
  exact (X4_body_panic_origin (mkConverter ex_null_part_src ex_opts)
           ex_null_part_body PanicNullAsString eq_refl).
Defined.

(** X5.  An error of [File] is one of three chains: the root body is not a
    syntax body; a value-conversion error under [convert file: convert
    body: convert expression]; or an error of the serializer under
    [marshal json]. *)
Theorem X5_file_error_chains (marshal : value -> result string)
    (file : hclFile) (opts : Options) (e : error) :
  File marshal file opts = Err e ->
  e = ErrWrap "convert file" ErrBodyType
  \/ (exists e', isValueError e'
                 /\ e = ErrWrap "convert file"
                          (ErrWrap "convert body"
                             (ErrWrap "convert expression" e')))
  \/ (exists e2 trees, ConvertFile file opts = Ok trees
                       /\ e = ErrWrap "marshal json" e2).
Proof.
  unfold File, ConvertFile. destruct (FileBody file) as [body|]; simpl.
  - destruct (convertBody _ body) as [[cfg lcfg]|e0|] eqn:Hb; simpl;
      [|intros [= <-]|discriminate].
    + intros H. right. right.
      destruct (marshal (VJsonObj cfg)) as [j|e1|]; simpl in H;
        [|injection H as <-; eauto|discriminate].
      destruct (marshal (VMap lcfg)) as [l|e2|]; simpl in H;
        [discriminate|injection H as <-; eauto|discriminate].
    + right. left.
      apply convertBody_Err in Hb as (k & a & e' & _ & _ & He' & ->). eauto.
  - intros [= <-]. by left.
Qed.

Lemma X5_file_error_witness :
  ErrWrap "convert file"
    (ErrWrap "convert body" (ErrWrap "convert expression" ErrTemplateDiags))
  = ErrWrap "convert file" ErrBodyType
  \/ (exists e', isValueError e'
                 /\ ErrWrap "convert file"
                      (ErrWrap "convert body"
                         (ErrWrap "convert expression" ErrTemplateDiags))
                    = ErrWrap "convert file"
                        (ErrWrap "convert body"
                           (ErrWrap "convert expression" e')))
  \/ (exists e2 trees,
         ConvertFile (mkFile (SyntaxBody ex_for_body) ex_for_src) ex_opts
         = Ok trees
         /\ ErrWrap "convert file"
              (ErrWrap "convert body"
                 (ErrWrap "convert expression" ErrTemplateDiags))
            = ErrWrap "marshal json" e2).
Proof.
  exact (X5_file_error_chains ex_marshal
           (mkFile (SyntaxBody ex_for_body) ex_for_src) ex_opts _ eq_refl).
Defined.

(** ** The keys of a body's maps *)

Section BodyKeys.
Variable c : converter.

Lemma blocksState_keys blocks cfg lcfg k :
  blocksState c blocks cfg lcfg ->
  (is_Some (cfg !! k) <-> k ∈ BlockType <$> blocks)
  /\ (is_Some (lcfg !! k) <-> k ∈ BlockType <$> blocks).
Proof.
  intros Hst. destruct (Hst k) as (ms & ls & Hms & Hls & -> & ->).
  assert (k ∈ BlockType <$> blocks
          <-> filter (fun b => BlockType b = k) blocks <> []) as ->.
  { rewrite list_elem_of_fmap. split.
    - intros (b & -> & Hin) Hnil.
      assert (b ∈ filter (fun b' => BlockType b' = BlockType b) blocks) as Hb
        by (by apply list_elem_of_filter).
      rewrite Hnil in Hb. by apply not_elem_of_nil in Hb.
    - intros Hne. destruct (filter _ blocks) as [|b l] eqn:Hf; [done|].
      assert (b ∈ filter (fun b' => BlockType b' = k) blocks) as Hb
        by (rewrite Hf; apply list_elem_of_here).
      apply list_elem_of_filter in Hb as [Hty Hin]. by exists b. }
  split.
  - destruct Hms; simpl; split; try done; intros []; discriminate.
  - destruct Hls; simpl; split; try done; intros []; discriminate.
Qed.

Lemma attributes_loop_keys attributes acc acc' k :
  foldM (convertAttribute c) attributes acc = Ok acc' ->
  (is_Some (acc'.1 !! k) <-> k ∈ attributes.*1 \/ is_Some (acc.1 !! k))
  /\ (is_Some (acc'.2 !! k) <-> k ∈ attributes.*1 \/ is_Some (acc.2 !! k)).
Proof.
  revert acc; induction attributes as [|[key a] attributes IH];
    intros [cfg lcfg] H; simpl in H.
  - injection H as <-. rewrite fmap_nil.
    split; (split; [by right|intros [Hin|]; [by apply not_elem_of_nil in Hin|done]]).
  - apply bind_Ok in H as ([cfg1 lcfg1] & Hstep & H).
    destruct (IH _ H) as [IH1 IH2]. rewrite IH1, IH2. simpl.
    ok_inv Hstep. subst. simpl.
    rewrite !lookup_insert_is_Some, elem_of_cons.
    split; (split; [intros [?|[?|[? ?]]]|intros [[?|?]|?]]); auto;
      destruct (decide (key = k)); auto.
Qed.

Lemma bodyFields_lookup r lcfg k :
  bodyFields r lcfg !! k
  = if decide (k = "endIndex") then Some (VInt (Column (End_ r)))
    else if decide (k = "startIndex") then Some (VInt (Column (Start r)))
    else if decide (k = "line") then Some (VInt (Line (Start r)))
    else lcfg !! k.
Proof.
  unfold bodyFields. rewrite !lookup_insert.
  repeat case_decide; subst; try done.
Qed.

(** Every attribute is found under its key. *)
Lemma attributes_loop_lookup attributes acc acc' key a :
  foldM (convertAttribute c) attributes acc = Ok acc' ->
  NoDup attributes.*1 -> (key, a) ∈ attributes ->
  exists ret line,
    convertExpression c (Expr a) = Ok (ret, line)
    /\ acc'.1 !! key = Some ret
    /\ acc'.2 !! key = Some (annotateKey (NameRange a) line).
Proof.
  revert acc; induction attributes as [|[k0 a0] attributes IH];
    intros [cfg lcfg] H Hnd Hin; simpl in H.
  - by apply not_elem_of_nil in Hin.
  - apply bind_Ok in H as ([cfg1 lcfg1] & Hstep & H).
    rewrite fmap_cons in Hnd. apply NoDup_cons in Hnd as [Hk0 Hnd].
    apply elem_of_cons in Hin as [[= -> ->]|Hin].
    + destruct (attributes_loop_other c _ _ _ k0 H Hk0) as [-> ->].
      ok_inv Hstep. apply wrapErr_Ok in Hm. subst. simpl.
      do 2 eexists. split; [exact Hm|]. by rewrite !lookup_insert_eq.
    + by apply (IH _ H).
Qed.
End BodyKeys.

(** X6.  The value map of a converted body has exactly the names of the
    body's attributes and the types of its blocks as keys; the line map
    has those and [line], [startIndex], [endIndex]. *)
Theorem X6_body_key_sets (c : converter)
    (attributes : list (string * Attribute)) (blocks : list Block)
    (srcRange : Range) (cfg lcfg : obj) (k : string) :
  convertBody c (mkBody attributes blocks srcRange) = Ok (cfg, lcfg) ->
  (is_Some (cfg !! k) <-> k ∈ attributes.*1 \/ k ∈ BlockType <$> blocks)
  /\ (is_Some (lcfg !! k)
      <-> k ∈ attributes.*1 \/ k ∈ BlockType <$> blocks
          \/ k ∈ ["line"; "startIndex"; "endIndex"]).
Proof.
  intros H. rewrite convertBody_eq in H.
  apply bind_Ok in H as ([cfg1 lcfg1] & Hblocks & H).
  apply bind_Ok in H as ([cfg2 lcfg2] & Hattrs & H). injection H as <- <-.
  destruct (attributes_loop_keys c _ _ _ k Hattrs) as [H1 H2].
  destruct (blocksState_keys c _ _ _ k (blocks_loop c _ _ Hblocks)) as [B1 B2].
  simpl in *. rewrite H1, B1. split; [done|].
  rewrite bodyFields_lookup.
  repeat case_decide; subst.
  - split; [|intros _; by eexists]. intros _. right. right.
    repeat first [apply list_elem_of_here | apply list_elem_of_further].
  - split; [|intros _; by eexists]. intros _. right. right.
    repeat first [apply list_elem_of_here | apply list_elem_of_further].
  - split; [|intros _; by eexists]. intros _. right. right.
    repeat first [apply list_elem_of_here | apply list_elem_of_further].
  - rewrite H2, B2. split; [tauto|].
    intros [?|[?|Hin]]; auto.
    repeat (apply elem_of_cons in Hin as [?|Hin]; [done|]).
    by apply not_elem_of_nil in Hin.
Qed.

(** The document [a {}], [a = 1]: one key. *)
Lemma X6_body_key_sets_witness :
  exists cfg lcfg,
    convertBody (mkConverter ex_clash_src ex_opts) ex_clash_body = Ok (cfg, lcfg)
    /\ (is_Some (cfg !! "b") <-> "b" ∈ [ex_clash_attr].*1
                                 \/ "b" ∈ BlockType <$> [ex_a_block 1])
    /\ (is_Some (lcfg !! "b")
        <-> "b" ∈ [ex_clash_attr].*1 \/ "b" ∈ BlockType <$> [ex_a_block 1]
            \/ "b" ∈ ["line"; "startIndex"; "endIndex"]).
Proof.
  eexists _, _. split; [vm_compute; reflexivity|].
  eapply (X6_body_key_sets (mkConverter ex_clash_src ex_opts)
            [ex_clash_attr] [ex_a_block 1] (ex_range 1 1 0 3 1 11)).
  reflexivity.
Defined.

(** X7.  In a converted body whose attribute names are pairwise distinct,
    every attribute's converted value is stored under its name, whatever
    blocks there are, and, unless the name is [line], [startIndex] or
    [endIndex], its line node is stored under its name with the key fields
    of the name range added when it is a positional record. *)
Theorem X7_attribute_lookup (c : converter)
    (attributes : list (string * Attribute)) (blocks : list Block)
    (srcRange : Range) (cfg lcfg : obj) (key : string) (a : Attribute) :
  convertBody c (mkBody attributes blocks srcRange) = Ok (cfg, lcfg) ->
  NoDup attributes.*1 ->
  (key, a) ∈ attributes ->
  exists ret line,
    convertExpression c (Expr a) = Ok (ret, line)
    /\ cfg !! key = Some ret
    /\ (key ∉ ["line"; "startIndex"; "endIndex"] ->
        lcfg !! key = Some (annotateKey (NameRange a) line))
    /\ (forall rec, line = VIntMap rec ->
          annotateKey (NameRange a) line
          = VIntMap (<["__key__line" := Line (Start (NameRange a))]>
                       (<["__key__endIndex" := Column (End_ (NameRange a))]>
                          (<["__key__startIndex" := Column (Start (NameRange a))]>
                             rec))))
    /\ (forall m, line = VMap m -> annotateKey (NameRange a) line = VMap m).
Proof.
  intros H Hnd Hin. rewrite convertBody_eq in H.
  apply bind_Ok in H as ([cfg1 lcfg1] & Hblocks & H).
  apply bind_Ok in H as ([cfg2 lcfg2] & Hattrs & H). injection H as <- <-.
  destruct (attributes_loop_lookup c _ _ _ _ _ Hattrs Hnd Hin)
    as (ret & line & He & Hc & Hl). simpl in *.
  exists ret, line. split; [done|]. split; [done|]. split; [|split].
  - intros Hk. rewrite bodyFields_lookup.
    repeat case_decide; subst; try done; exfalso; apply Hk; set_solver.
  - by intros rec ->.
  - by intros m ->.
Qed.

(** The attribute [b = 2] of the document [a = 1], [b = 2]. *)
Lemma X7_attribute_lookup_witness :
  exists cfg lcfg,
    convertBody (mkConverter ex_ab_src ex_opts) ex_ab_body = Ok (cfg, lcfg)
    /\ cfg !! "b" = Some (VCty (CtyNumber 2))
    /\ exists line, lcfg !! "b" = Some (annotateKey (NameRange ex_attr_b.2) line).
Proof.
  eexists _, _. split; [vm_compute; reflexivity|].
  destruct (X7_attribute_lookup (mkConverter ex_ab_src ex_opts)
              [ex_attr_a; ex_attr_b] [] (ex_range 1 1 0 3 1 12) _ _
              "b" ex_attr_b.2 eq_refl)
    as (ret & line & He & Hc & Hl & _).
  - apply NoDup_cons. split; [|apply NoDup_singleton].
    apply not_elem_of_cons. split; [discriminate|apply not_elem_of_nil].
  - apply list_elem_of_further, list_elem_of_here.
  - injection He as <- <-. split; [exact Hc|].
    eexists. apply Hl. vm_compute. intros H.
    repeat (apply elem_of_cons in H as [H|H]; [discriminate|]).
    by apply not_elem_of_nil in H.
Defined.

(** ** Position fields *)

Lemma keyFields_lookup (nr : Range) (m : obj) :
  keyFields VInt nr m !! "__key__startIndex" = Some (VInt (Column (Start nr)))
  /\ keyFields VInt nr m !! "__key__endIndex" = Some (VInt (Column (End_ nr)))
  /\ keyFields VInt nr m !! "__key__line" = Some (VInt (Line (Start nr)))
  /\ forall k, k ∉ ["__key__startIndex"; "__key__endIndex"; "__key__line"] ->
               keyFields VInt nr m !! k = m !! k.
Proof.
  unfold keyFields.
  split; [by rewrite !lookup_insert_ne, lookup_insert_eq by done|].
  split; [by rewrite lookup_insert_ne, lookup_insert_eq by done|].
  split; [by rewrite lookup_insert_eq|].
  intros k Hk. rewrite !lookup_insert_ne; [done| | |];
    intros <-; apply Hk;
    repeat first [apply list_elem_of_here | apply list_elem_of_further].
Qed.

(** X8.  The line map of every converted body holds the body's own range
    under [line], [startIndex] and [endIndex], whatever attributes and
    blocks the body has; and the line object a block contributes holds,
    at the end of its label chain, the block's type range under the three
    [__key__] fields next to the range of the block's body. *)
Theorem X8_position_fields (c : converter) :
  (forall body cfg lcfg,
      convertBody c body = Ok (cfg, lcfg) ->
      lcfg !! "line" = Some (VInt (Line (Start (SrcRange body))))
      /\ lcfg !! "startIndex" = Some (VInt (Column (Start (SrcRange body))))
      /\ lcfg !! "endIndex" = Some (VInt (Column (End_ (SrcRange body)))))
  /\ (forall block bcfg blcfg,
         convertBlock c block ∅ ∅ = Ok (bcfg, blcfg) ->
         exists inner,
           blcfg !! BlockType block
           = Some (VMap (labelChain VMap (Labels block) inner))
           /\ inner !! "__key__startIndex"
              = Some (VInt (Column (Start (TypeRange block))))
           /\ inner !! "__key__endIndex"
              = Some (VInt (Column (End_ (TypeRange block))))
           /\ inner !! "__key__line"
              = Some (VInt (Line (Start (TypeRange block))))
           /\ inner !! "line"
              = Some (VInt (Line (Start (SrcRange (BlockBody block)))))
           /\ inner !! "startIndex"
              = Some (VInt (Column (Start (SrcRange (BlockBody block)))))
           /\ inner !! "endIndex"
              = Some (VInt (Column (End_ (SrcRange (BlockBody block)))))).
Proof.
  assert (forall body cfg lcfg,
      convertBody c body = Ok (cfg, lcfg) ->
      lcfg !! "line" = Some (VInt (Line (Start (SrcRange body))))
      /\ lcfg !! "startIndex" = Some (VInt (Column (Start (SrcRange body))))
      /\ lcfg !! "endIndex" = Some (VInt (Column (End_ (SrcRange body)))))
    as Hbody.
  { intros [attributes blocks srcRange] cfg lcfg H. rewrite convertBody_eq in H.
    apply bind_Ok in H as (acc & _ & H).
    apply bind_Ok in H as ([cfg2 lcfg2] & _ & H). injection H as <- <-.
    rewrite !bodyFields_lookup. by repeat split. }
  split; [exact Hbody|].
  intros block bcfg blcfg H. rewrite convertBlock_fresh_eq in H.
  destruct (convertBody c (BlockBody block)) as [[v bl]| |] eqn:Hb;
    try discriminate.
  injection H as <- <-. destruct (Hbody _ _ _ Hb) as (H1 & H2 & H3).
  destruct (keyFields_lookup (TypeRange block) bl) as (K1 & K2 & K3 & K4).
  exists (keyFields VInt (TypeRange block) bl).
  rewrite lookup_singleton_eq, K1, K2, K3.
  rewrite !K4, H1, H2, H3; [done| | |];
    intros Hin;
    repeat (apply elem_of_cons in Hin as [Hin|Hin]; [discriminate|]);
    by apply not_elem_of_nil in Hin.
Qed.

(** The block [db 'mysql' 'primary' { x = 1 }]. *)
Lemma X8_position_fields_witness :
  exists bcfg blcfg inner,
    convertBlock ex_db_conv ex_db_block ∅ ∅ = Ok (bcfg, blcfg)
    /\ blcfg !! "db" = Some (VMap (labelChain VMap ["mysql"; "primary"] inner))
    /\ inner !! "__key__startIndex" = Some (VInt 1)
    /\ inner !! "line" = Some (VInt 1)
    /\ inner !! "startIndex" = Some (VInt 22)
    /\ inner !! "endIndex" = Some (VInt 31).
Proof.
  destruct (proj2 (X8_position_fields ex_db_conv) ex_db_block _ _ eq_refl)
    as (inner & H0 & H1 & _ & _ & H4 & H5 & H6).
  eexists _, _, inner. split; [reflexivity|]. repeat split; assumption.
Defined.

(** ** Tuples and objects *)

Section Collections.
Variable c : converter.

Lemma collectM_Ok {A B} (f : A -> result B) (l : list A) (ys : list B) :
  collectM f l = Ok ys <-> Forall2 (fun x y => f x = Ok y) l ys.
Proof.
  revert ys; induction l as [|x l IH]; intros ys; simpl.
  - split; [intros [= <-]; constructor|by intros ->%Forall2_nil_inv_l].
  - split.
    + intros H. apply bind_Ok in H as (y & Hx & H).
      apply bind_Ok in H as (ys' & Hl & H). injection H as <-.
      constructor; [done|by apply IH].
    + intros (y & ys' & Hx & Hl & ->)%Forall2_cons_inv_l.
      rewrite Hx. simpl. apply IH in Hl. by rewrite Hl.
Qed.

(** The item loop keeps an entry whose key no later item converts to. *)
Lemma objectItems_keep (items : list (Expression * Expression))
      (m0 l0 m l : obj) (k : string) :
  foldM (fun '(m, l) '(KeyExpr, ValueExpr) =>
           key ← convertKey c KeyExpr;
           '(v, ln) ← convertExpression c ValueExpr;
           Ok (<[key := v]> m, <[key := ln]> l)) items (m0, l0) = Ok (m, l) ->
  Forall (fun item => convertKey c item.1 <> Ok k) items ->
  m !! k = m0 !! k /\ l !! k = l0 !! k.
Proof.
  revert m0 l0; induction items as [|[ke ve] items IH]; intros m0 l0 H Hall.
  - simpl in H. by injection H as <- <-.
  - simpl in H. apply bind_Ok in H as ([m1 l1] & H1 & H).
    apply Forall_cons in Hall as [Hk Hall].
    destruct (IH _ _ H Hall) as [-> ->]. ok_inv H1. subst. simpl in Hk.
    rewrite !lookup_insert_ne; [done| |]; intros ->; by apply Hk.
Qed.
End Collections.

(** X9.  A tuple converts exactly when each of its elements converts; the
    value is the sequence of the elements' values, in order and of the
    same length, and the line node is the tuple's own positional record
    (the elements' line nodes are dropped). *)
Theorem X9_tuple_elementwise (c : converter) (es : list Expression)
    (r : NodeRanges) (v l : value) :
  convertExpression c (TupleConsExpr es r) = Ok (v, l)
  <-> exists vs,
      v = VSlice vs
      /\ l = VIntMap (lineInfo (nodeStartRange r))
      /\ Forall2 (fun e v' => exists l', convertExpression c e = Ok (v', l'))
                 es vs.
Proof.
  simpl. split.
  - intros H. apply bind_Ok in H as (vs & Hc & H). injection H as <- <-.
    exists vs. repeat split. apply collectM_Ok in Hc.
    eapply Forall2_impl; [exact Hc|]. intros e v' He. cbv beta in He.
    destruct (convertExpression c e) as [[v1 l1]| |]; simpl in He;
      try discriminate. injection He as <-. by exists l1.
  - intros (vs & -> & -> & HF).
    assert (collectM (fun ex => '(elem, _) ← convertExpression c ex; Ok elem) es
            = Ok vs) as ->; [|done].
    apply collectM_Ok. eapply Forall2_impl; [exact HF|].
    intros e v' [l' He]. by rewrite He.
Qed.

(** The tuple of [x = [1, 2]]. *)
Lemma X9_tuple_witness :
  exists vs,
    VSlice [VCty (CtyNumber 1); VCty (CtyNumber 2)] = VSlice vs
    /\ VIntMap (lineInfo (ex_range 1 5 4 1 6 5))
       = VIntMap (lineInfo (ex_range 1 5 4 1 6 5))
    /\ Forall2 (fun e v' =>
                  exists l', convertExpression (mkConverter ex_tuple_src ex_opts) e
                             = Ok (v', l'))
         [LiteralValueExpr (CtyNumber 1) (ex_node (ex_range 1 6 5 1 7 6));
          LiteralValueExpr (CtyNumber 2) (ex_node (ex_range 1 9 8 1 10 9))]
         vs.
Proof.
  exact (proj1 (X9_tuple_elementwise (mkConverter ex_tuple_src ex_opts)
                  [LiteralValueExpr (CtyNumber 1) (ex_node (ex_range 1 6 5 1 7 6));
                   LiteralValueExpr (CtyNumber 2) (ex_node (ex_range 1 9 8 1 10 9))]
                  (mkNodeRanges (ex_range 1 5 4 1 11 10) (ex_range 1 5 4 1 6 5))
                  _ _) eq_refl).
Defined.

(** X10.  In a converted object construction the last item whose key
    converts to [k] decides the entries under [k]: the value map holds
    that item's value and the line map that item's line node. *)
Theorem X10_object_last_item_wins (c : converter)
    (before after : list (Expression * Expression)) (ke ve : Expression)
    (r : NodeRanges) (k : string) (m l : obj) :
  convertExpression c (ObjectConsExpr (before ++ (ke, ve) :: after) r)
  = Ok (VJsonObj m, VMap l) ->
  convertKey c ke = Ok k ->
  Forall (fun item => convertKey c item.1 <> Ok k) after ->
  exists v ln,
    convertExpression c ve = Ok (v, ln)
    /\ m !! k = Some v /\ l !! k = Some ln.
Proof.
  intros H Hk Hafter. simpl in H.
  apply bind_Ok in H as ([m' l'] & Hf & H). injection H as <- <-.
  rewrite foldM_app in Hf. apply bind_Ok in Hf as ([m1 l1] & _ & Hf).
  simpl in Hf. apply bind_Ok in Hf as ([m2 l2] & Hstep & Hf).
  rewrite Hk in Hstep. simpl in Hstep.
  apply bind_Ok in Hstep as ([v ln] & Hv & Hstep). injection Hstep as <- <-.
  destruct (objectItems_keep c _ _ _ _ _ k Hf Hafter) as [-> ->].
  exists v, ln. by rewrite !lookup_insert_eq.
Qed.

(** The object of [x = {a = 1, a = 2}]: the second item decides. *)
Lemma X10_object_last_item_witness :
  exists m l,
    convertExpression (mkConverter ex_dup_src ex_opts) ex_dup_object
    = Ok (VJsonObj m, VMap l)
    /\ exists v ln,
        convertExpression (mkConverter ex_dup_src ex_opts) (ex_dup_item 13 17 2).2
        = Ok (v, ln)
        /\ m !! "a" = Some v /\ l !! "a" = Some ln.
Proof.
  eexists _, _. split; [vm_compute; reflexivity|].
  apply (X10_object_last_item_wins (mkConverter ex_dup_src ex_opts)
           [ex_dup_item 6 10 1] [] (ex_dup_item 13 17 2).1 (ex_dup_item 13 17 2).2
           (mkNodeRanges (ex_range 1 5 4 1 19 18) (ex_range 1 5 4 1 6 5)) "a").
  - reflexivity.
  - reflexivity.
  - constructor.
Defined.

(** ** Bounds of the range extractor *)




(** ** Templates of several parts *)

Section TemplateParts.
Variable c : converter.

Lemma builder_Ok (f : Expression -> result string) (parts : list Expression)
      (acc s : string) :
  foldM (fun builder part => t ← f part; Ok (builder +:+ t)) parts acc = Ok s
  <-> exists strs,
      Forall2 (fun p t => f p = Ok t) parts strs
      /\ s = acc +:+ foldr String.append EmptyString strs.
Proof.
  revert acc; induction parts as [|p parts IH]; intros acc; simpl.
  - split.
    + intros [= <-]. exists []. split; [constructor|].
      simpl. by rewrite string_app_nil_r.
    + intros (strs & ->%Forall2_nil_inv_l & ->). simpl.
      by rewrite string_app_nil_r.
  - split.
    + intros H. apply bind_Ok in H as (acc' & Hp & H).
      apply bind_Ok in Hp as (t & Ht & Hp). injection Hp as <-.
      apply IH in H as (strs & HF & ->). exists (t :: strs).
      split; [by constructor|]. simpl. by rewrite string_app_assoc.
    + intros (strs & (t & strs' & Ht & HF & ->)%Forall2_cons_inv_l & ->).
      rewrite Ht. simpl. apply IH. exists strs'. split; [done|].
      simpl. by rewrite string_app_assoc.
Qed.
End TemplateParts.

(** X12.  A template that is not a single literal converts exactly when
    each of its parts converts as a string part, and its string is the
    concatenation of the parts' strings in order. *)
Theorem X12_template_concatenates_parts (c : converter)
    (parts : list Expression) (s : string) :
  IsStringLiteral parts = None ->
  (convertTemplate c parts = Ok s
   <-> exists strs,
       Forall2 (fun p t => convertStringPart c p = Ok t) parts strs
       /\ s = foldr String.append EmptyString strs).
Proof.
  intros Hlit. unfold convertTemplate, convertTemplateBody. rewrite Hlit.
  apply builder_Ok.
Qed.

(** The template [hello-${var.x}]. *)
Lemma X12_template_concatenates_witness :
  convertTemplate (mkConverter ("name = " +:+ quoted "hello-${var.x}") ex_opts)
    [LiteralValueExpr (CtyString "hello-") (ex_node (ex_range 1 9 8 1 15 14));
     ScopeTraversalExpr (ex_node (ex_range 1 17 16 1 22 21))]
  = Ok "hello-${var.x}".
Proof.
  apply (proj2 (X12_template_concatenates_parts
                  (mkConverter ("name = " +:+ quoted "hello-${var.x}") ex_opts)
                  [LiteralValueExpr (CtyString "hello-")
                     (ex_node (ex_range 1 9 8 1 15 14));
                   ScopeTraversalExpr (ex_node (ex_range 1 17 16 1 22 21))]
                  "hello-${var.x}" eq_refl)).
  exists ["hello-"; "${var.x}"]. split; [|reflexivity].
  constructor; [reflexivity|]. constructor; [reflexivity|constructor].
Defined.

(** ** Reconstruction of control markup *)

Lemma length_string_app (s1 s2 : string) :
  String.length (s1 +:+ s2) = (String.length s1 + String.length s2)%nat.
Proof. induction s1 as [|a s1 IH]; simpl; [done|by rewrite IH]. Qed.

Lemma substring_prefix (m s : string) :
  substring 0 (String.length m) (m +:+ s) = m.
Proof.
  induction m as [|a m IH]; simpl; [by destruct s|by rewrite IH].
Qed.

Lemma substring_app_mid (p m s : string) :
  substring (String.length p) (String.length m) (p +:+ m +:+ s) = m.
Proof.
  induction p as [|a p IH]; simpl; [apply substring_prefix|exact IH].
Qed.

Lemma get_app_at (p s : string) (ch : ascii) :
  String.get (String.length p) (p +:+ String ch s) = Some ch.
Proof. induction p as [|a p IH]; simpl; [done|exact IH]. Qed.

(** A range that covers the text [m] between [p] and a following text
    that does not start with a closing parenthesis. *)
Lemma rangeSource_mid (opts : Options) (p m : string) (ch : ascii) (s : string)
      (r : Range) :
  ch <> ")"%char ->
  Byte (Start r) = Z.of_nat (String.length p) ->
  Byte (End_ r) = Z.of_nat (String.length p + String.length m) ->
  rangeSource (mkConverter (p +:+ m +:+ String ch s) opts) r = Ok m.
Proof.
  intros Hch Hlo Hhi.
  rewrite rangeSource_plain.
  - rewrite Hlo, Hhi. simpl bytes.
    replace (Z.to_nat (_ - _)) with (String.length m) by lia.
    rewrite Nat2Z.id. f_equal. apply substring_app_mid.
  - rewrite Hlo, Hhi. simpl bytes.
    rewrite !length_string_app. simpl. lia.
  - rewrite Hhi, Nat2Z.id. simpl bytes.
    rewrite <- length_string_app, <- string_app_assoc, get_app_at. congruence.
Qed.

(** Brings appended strings to right-nested form. *)
Ltac string_norm :=
  repeat first [rewrite string_app_assoc | progress simpl]; try reflexivity.

(** X13.  A conditional directive written [%{if cond}A%{endif}] or
    [%{if cond}A%{else}B%{endif}] (B not empty) is reconstructed byte for
    byte: when the condition's range covers [cond] in the source and the
    branches reconstruct to [A] and [B], the conditional reconstructs to
    the very text of the directive in the source. *)
Theorem X13_conditional_round_trip (opts : Options)
    (pre cond A B post : string) (cnd t f : Expression) (r : NodeRanges) :
  let elsePart := match B with
                  | EmptyString => EmptyString
                  | _ => "%{else}" +:+ B
                  end in
  let directive := "%{if " +:+ cond +:+ "}" +:+ A +:+ elsePart +:+ "%{endif}" in
  let c := mkConverter (pre +:+ directive +:+ post) opts in
  Byte (Start (ExprRange cnd)) = Z.of_nat (String.length pre + 5) ->
  Byte (End_ (ExprRange cnd))
  = Z.of_nat (String.length pre + 5 + String.length cond) ->
  convertStringPart c t = Ok A ->
  convertStringPart c f = Ok B ->
  convertStringPart c (ConditionalExpr cnd t f r) = Ok directive
  /\ substring (String.length pre) (String.length directive) (bytes c)
     = directive.
Proof.
  intros elsePart directive c Hlo Hhi Ht Hf.
  split; [|apply substring_app_mid].
  assert (rangeSource c (ExprRange cnd) = Ok cond) as Hcond.
  { unfold c.
    replace (pre +:+ directive +:+ post)
      with ((pre +:+ "%{if ") +:+ cond
            +:+ String "}" (A +:+ elsePart +:+ "%{endif}" +:+ post)).
    - apply rangeSource_mid; [discriminate| |].
      + by rewrite length_string_app.
      + by rewrite length_string_app.
    - unfold directive. string_norm. }
  simpl. unfold convertTemplateConditionalBody. rewrite Hcond. simpl.
  rewrite Ht, Hf. simpl. unfold directive, elsePart.
  destruct B as [|b B]; string_norm.
Qed.

(** X14.  A for directive written [%{for v in coll}body%{endfor}] or
    [%{for k, v in coll}body%{endfor}] is reconstructed byte for byte:
    when the collection's range covers [coll] in the source and the loop
    body reconstructs to [body], the loop reconstructs to the very text of
    the directive in the source. *)
Theorem X14_for_round_trip (opts : Options)
    (pre kv vv coll body post : string) (collE valE : Expression)
    (r r' : NodeRanges) :
  let vars := match kv with
              | EmptyString => vv
              | _ => kv +:+ ", " +:+ vv
              end in
  let directive :=
    "%{for " +:+ vars +:+ " in " +:+ coll +:+ "}" +:+ body +:+ "%{endfor}" in
  let c := mkConverter (pre +:+ directive +:+ post) opts in
  Byte (Start (ExprRange collE))
  = Z.of_nat (String.length pre + 6 + String.length vars + 4) ->
  Byte (End_ (ExprRange collE))
  = Z.of_nat (String.length pre + 6 + String.length vars + 4
              + String.length coll) ->
  convertStringPart c valE = Ok body ->
  convertStringPart c (TemplateJoinExpr (ForExpr kv vv collE valE r) r')
  = Ok directive
  /\ substring (String.length pre) (String.length directive) (bytes c)
     = directive.
Proof.
  intros vars directive c Hlo Hhi Hv.
  split; [|apply substring_app_mid].
  assert (rangeSource c (ExprRange collE) = Ok coll) as Hcoll.
  { unfold c.
    replace (pre +:+ directive +:+ post)
      with ((pre +:+ "%{for " +:+ vars +:+ " in ") +:+ coll
            +:+ String "}" (body +:+ "%{endfor}" +:+ post)).
    - apply rangeSource_mid; [discriminate| |].
      + rewrite Hlo, !length_string_app. simpl. f_equal. lia.
      + rewrite Hhi, !length_string_app. simpl. f_equal. lia.
    - unfold directive. string_norm. }
  simpl. unfold convertTemplateForBody. rewrite Hcoll. simpl.
  rewrite Hv. simpl. unfold directive, vars.
  destruct kv as [|k kv]; string_norm.
Qed.

(** The directive [%{if flag}A%{else}B%{endif}] inside [x = '...']. *)
Lemma X13_conditional_round_trip_witness :
  convertStringPart
    (mkConverter (quoted_open "x = " +:+ "%{if flag}A%{else}B%{endif}"
                  +:+ quoted_close) ex_opts)
    (ConditionalExpr
       (ScopeTraversalExpr (ex_node (ex_range 1 11 10 1 15 14)))
       (ex_str_template "A" (ex_range 1 16 15 1 17 16))
       (ex_str_template "B" (ex_range 1 24 23 1 25 24))
       (ex_node (ex_range 1 6 5 1 33 32)))
  = Ok "%{if flag}A%{else}B%{endif}".
Proof.
  exact (proj1 (X13_conditional_round_trip ex_opts (quoted_open "x = ")
                  "flag" "A" "B" quoted_close
                  (ScopeTraversalExpr (ex_node (ex_range 1 11 10 1 15 14)))
                  (ex_str_template "A" (ex_range 1 16 15 1 17 16))
                  (ex_str_template "B" (ex_range 1 24 23 1 25 24))
                  (ex_node (ex_range 1 6 5 1 33 32))
                  eq_refl eq_refl eq_refl eq_refl)).
Defined.

(** The directive [%{for k, v in m}x%{endfor}] inside [y = '...']. *)
Lemma X14_for_round_trip_witness :
  convertStringPart
    (mkConverter (quoted_open "y = " +:+ "%{for k, v in m}x%{endfor}"
                  +:+ quoted_close) ex_opts)
    (TemplateJoinExpr
       (ForExpr "k" "v"
          (ScopeTraversalExpr (ex_node (ex_range 1 20 19 1 21 20)))
          (ex_str_template "x" (ex_range 1 22 21 1 23 22))
          (ex_node (ex_range 1 6 5 1 32 31)))
       (ex_node (ex_range 1 6 5 1 32 31)))
  = Ok "%{for k, v in m}x%{endfor}".
Proof.
  exact (proj1 (X14_for_round_trip ex_opts (quoted_open "y = ")
                  "k" "v" "m" "x" quoted_close
                  (ScopeTraversalExpr (ex_node (ex_range 1 20 19 1 21 20)))
                  (ex_str_template "x" (ex_range 1 22 21 1 23 22))
                  (ex_node (ex_range 1 6 5 1 32 31))
                  (ex_node (ex_range 1 6 5 1 32 31))
                  eq_refl eq_refl eq_refl)).
Defined.

(** ** [convertBlock] on maps that already hold entries *)

Section SharedMaps.
Variable c : converter.

Lemma mergeAtKey_other (key k : string) (v : value) (cfg : obj) :
  k <> key -> mergeAtKey key v cfg !! k = cfg !! k.
Proof.
  intros Hne. unfold mergeAtKey.
  destruct (cfg !! key) as [[]|]; by rewrite lookup_insert_ne.
Qed.

Lemma mergeAtKey_entry (key : string) (v : value) (cfg : obj) (l : list value) :
  cfg !! key = mergedEntry l -> Forall notSlice l ->
  mergeAtKey key v cfg !! key = mergedEntry (l ++ [v]).
Proof.
  intros Hc Hl. rewrite mergeAtKey_lookup, Hc.
  destruct l as [|x [|y l]]; simpl; [done| |done].
  apply Forall_cons in Hl as [Hx _]. by destruct x.
Qed.

Lemma foldM_cons {A S} (step : S -> A -> result S) (x : A) (l : list A) (s : S) :
  foldM step (x :: l) s = step s x ≫= foldM step l.
Proof. reflexivity. Qed.

Lemma convertBlock_no_labels blockType body typeRange cfg lcfg :
  convertBlock c (mkBlock blockType [] body typeRange) cfg lcfg
  = finishBlock c body typeRange blockType cfg lcfg.
Proof. reflexivity. Qed.

Lemma merge_successive (ty : string) (blocks : list Block) (vs : list obj) :
  Forall (fun b => BlockType b = ty /\ Labels b = []) blocks ->
  Forall2 (fun b v => exists bl, convertBody c (BlockBody b) = Ok (v, bl))
          blocks vs ->
  forall cfg0 lcfg0 vs0 ls0,
    cfg0 !! ty = mergedEntry (VJsonObj <$> vs0) ->
    lcfg0 !! ty = mergedEntry (VMap <$> ls0) ->
    exists cfg lcfg ls,
      foldM (fun acc b => convertBlock c b acc.1 acc.2) blocks (cfg0, lcfg0)
      = Ok (cfg, lcfg)
      /\ cfg !! ty = mergedEntry (VJsonObj <$> (vs0 ++ vs))
      /\ lcfg !! ty = mergedEntry (VMap <$> (ls0 ++ ls))
      /\ length ls = length vs.
Proof.
  intros Hall HF. induction HF as [|b v blocks vs [bl Hb] HF IH];
    intros cfg0 lcfg0 vs0 ls0 Hc Hl.
  - exists cfg0, lcfg0, []. by rewrite !app_nil_r.
  - apply Forall_cons in Hall as [[Hty Hlab] Hall].
    destruct b as [ty' labels body tr]. simpl in Hty, Hlab, Hb. subst.
    rewrite foldM_cons. cbn [fst snd].
    rewrite convertBlock_no_labels. unfold finishBlock.
    rewrite Hb. cbn [mbind result_bind].
    destruct (IH Hall
                (mergeAtKey ty (VJsonObj v) cfg0)
                (mergeAtKey ty (VMap (keyFields VInt tr bl)) lcfg0)
                (vs0 ++ [v]) (ls0 ++ [keyFields VInt tr bl]))
      as (cfg & lcfg & ls & Hfold & Hcfg & Hlcfg & Hlen).
    + rewrite fmap_app. apply mergeAtKey_entry; [done|].
      apply Forall_fmap, Forall_true. by intros.
    + rewrite fmap_app. apply mergeAtKey_entry; [done|].
      apply Forall_fmap, Forall_true. by intros.
    + exists cfg, lcfg, (keyFields VInt tr bl :: ls).
      rewrite Hfold. split; [done|].
      rewrite <- !(assoc_L (++)) in Hcfg, Hlcfg. simpl in *.
      by rewrite Hlen.
Qed.

Lemma finishBlock_frame body typeRange key cfg lcfg cfg' lcfg' k :
  finishBlock c body typeRange key cfg lcfg = Ok (cfg', lcfg') ->
  k <> key -> cfg' !! k = cfg !! k /\ lcfg' !! k = lcfg !! k.
Proof.
  unfold finishBlock. destruct (convertBody c body) as [[v bl]| |];
    try discriminate.
  intros [= <- <-] Hne. by rewrite !mergeAtKey_other.
Qed.

Lemma nestLabels_frame blockType allLabels body typeRange labels :
  forall key cfg lcfg cfg' lcfg' k,
    nestLabels blockType allLabels (finishBlock c body typeRange)
      key labels cfg lcfg = Ok (cfg', lcfg') ->
    k <> key -> cfg' !! k = cfg !! k /\ lcfg' !! k = lcfg !! k.
Proof.
  destruct labels as [|label rest]; intros key cfg lcfg cfg' lcfg' k H Hne.
  - simpl in H. by eapply finishBlock_frame.
  - simpl in H.
    destruct (cfg !! key) as [[]|]; try discriminate.
    + destruct (lcfg !! key) as [[]|]; try discriminate.
      apply bind_Ok in H as ([sub' lsub'] & _ & H). injection H as <- <-.
      by rewrite !lookup_insert_ne.
    + apply bind_Ok in H as ([sub' lsub'] & _ & H). injection H as <- <-.
      by rewrite !lookup_insert_ne.
Qed.
End SharedMaps.

(** X15.  When [convertBlock] is called for blocks without labels and of
    one type, one call after the other on the same pair of maps starting
    from empty maps, the value map holds under the type nothing after no
    call, the bare converted body after one call, and the sequence of all
    converted bodies, in call order, after two or more calls; the line map
    is merged in the same way. *)
Theorem X15_successive_blocks_merge (c : converter) (ty : string)
    (blocks : list Block) (vs : list obj) :
  Forall (fun b => BlockType b = ty /\ Labels b = []) blocks ->
  Forall2 (fun b v => exists bl, convertBody c (BlockBody b) = Ok (v, bl))
          blocks vs ->
  exists cfg lcfg ls,
    foldM (fun acc b => convertBlock c b acc.1 acc.2) blocks
      ((∅ : obj), (∅ : obj))
    = Ok (cfg, lcfg)
    /\ cfg !! ty = mergedEntry (VJsonObj <$> vs)
    /\ lcfg !! ty = mergedEntry (VMap <$> ls)
    /\ length ls = length vs.
Proof.
  intros Hall HF.
  exact (merge_successive c ty blocks vs Hall HF ∅ ∅ [] []
           (lookup_empty _) (lookup_empty _)).
Qed.

(** Three calls for [a {}]: the sequence of the three bodies. *)
Lemma X15_successive_blocks_witness :
  exists cfg lcfg ls,
    foldM (fun acc b => convertBlock (mkConverter ex_a3_src ex_opts) b acc.1 acc.2)
      [ex_a_block 1; ex_a_block 2; ex_a_block 3] ((∅ : obj), (∅ : obj))
    = Ok (cfg, lcfg)
    /\ cfg !! "a" = Some (VSlice [VJsonObj ∅; VJsonObj ∅; VJsonObj ∅])
    /\ lcfg !! "a" = mergedEntry (VMap <$> ls)
    /\ length ls = 3%nat.
Proof.
  apply (X15_successive_blocks_merge (mkConverter ex_a3_src ex_opts) "a"
           [ex_a_block 1; ex_a_block 2; ex_a_block 3] [∅; ∅; ∅]).
  - repeat constructor.
  - repeat (constructor; [eexists; vm_compute; reflexivity|]). constructor.
Defined.

(** X16.  [convertBlock] changes its maps only under the block's type.
    For a block with labels it fails with the block-to-JSON error, whatever
    the block's body is, when the value map holds under the type something
    that is not an object, or when the value map holds an object there but
    the line map holds no line object. *)
Theorem X16_block_frame_and_conflict (c : converter) (block : Block)
    (cfg lcfg : obj) :
  (forall cfg' lcfg' k,
      convertBlock c block cfg lcfg = Ok (cfg', lcfg') ->
      k <> BlockType block ->
      cfg' !! k = cfg !! k /\ lcfg' !! k = lcfg !! k)
  /\ (forall cur,
         Labels block <> [] ->
         cfg !! BlockType block = Some cur ->
         (forall m, cur <> VJsonObj m) ->
         convertBlock c block cfg lcfg
         = Err (ErrBlockToJSON (BlockType block) (Labels block)))
  /\ (forall sub,
         Labels block <> [] ->
         cfg !! BlockType block = Some (VJsonObj sub) ->
         (forall m, lcfg !! BlockType block <> Some (VMap m)) ->
         convertBlock c block cfg lcfg
         = Err (ErrBlockLineToJSON (BlockType block) (Labels block))).
Proof.
  destruct block as [ty labels body tr].
  unfold BlockType, Labels. rewrite convertBlock_eq.
  split; [|split].
  - intros cfg' lcfg' k H Hne. by eapply nestLabels_frame.
  - intros cur Hl Hc Hcur. destruct labels as [|label rest]; [done|].
    simpl. rewrite Hc. destruct cur; try done. by destruct (Hcur m).
  - intros sub Hl Hc Hlc. destruct labels as [|label rest]; [done|].
    simpl. rewrite Hc.
    destruct (lcfg !! ty) as [[]|] eqn:Hlk; try done. by destruct (Hlc m).
Qed.

(** The block [db 'mysql' 'primary' { x = 1 }] on a value map that holds a
    sequence under [db]. *)
Lemma X16_block_conflict_witness :
  convertBlock ex_db_conv ex_db_block
    {[ "db" := VSlice [VJsonObj ∅; VJsonObj ∅] ]}
    {[ "db" := VSlice [VMap ∅; VMap ∅] ]}
  = Err (ErrBlockToJSON "db" ["mysql"; "primary"]).
Proof.
  apply (proj1 (proj2 (X16_block_frame_and_conflict ex_db_conv ex_db_block
                         {[ "db" := VSlice [VJsonObj ∅; VJsonObj ∅] ]}
                         {[ "db" := VSlice [VMap ∅; VMap ∅] ]}))
           (VSlice [VJsonObj ∅; VJsonObj ∅])).
  - discriminate.
  - reflexivity.
  - discriminate.
Defined.

(** X17.  An expression of any kind other than literal, template, template
    wrap, tuple and object (so also a conditional or a for expression
    outside a template) whose range lies inside the buffer and is not
    followed by a closing parenthesis converts to its source text between
    [${] and [}], with the positional record of its own start range; an
    object key that wraps a bare identifier converts to the identifier's
    source text without that markup. *)
Theorem X17_other_kinds_wrap_source (c : converter) (e : Expression) :
  let lo := Byte (Start (ExprRange e)) in
  let hi := Byte (End_ (ExprRange e)) in
  let src := substring (Z.to_nat lo) (Z.to_nat (hi - lo)) (bytes c) in
  0 <= lo -> lo <= hi -> hi <= Z.of_nat (String.length (bytes c)) ->
  String.get (Z.to_nat hi) (bytes c) <> Some ")"%char ->
  (isWrappedKind e = true ->
   convertExpression c e
   = Ok (VStr ("${" +:+ src +:+ "}"), VIntMap (lineInfo (StartRange e))))
  /\ (forall r rk, e = ScopeTraversalExpr r ->
                   convertKey c (ObjectConsKeyExpr e rk) = Ok src).
Proof.
  intros lo hi src H0 H1 H2 Hp.
  pose proof (rangeSource_plain c _ (conj H0 (conj H1 H2)) Hp) as Hsrc.
  split.
  - intros Hk. destruct e; try discriminate; simpl; unfold wrapExpr;
      by rewrite Hsrc.
  - intros r rk ->. exact Hsrc.
Qed.

(** The conditional expression of [x = a ? b : c], outside a template. *)
Lemma X17_other_kinds_witness :
  convertExpression (mkConverter "x = a ? b : c" ex_opts)
    (ConditionalExpr
       (ScopeTraversalExpr (ex_node (ex_range 1 5 4 1 6 5)))
       (ScopeTraversalExpr (ex_node (ex_range 1 9 8 1 10 9)))
       (ScopeTraversalExpr (ex_node (ex_range 1 13 12 1 14 13)))
       (mkNodeRanges (ex_range 1 5 4 1 14 13) (ex_range 1 5 4 1 6 5)))
  = Ok (VStr "${a ? b : c}", VIntMap (lineInfo (ex_range 1 5 4 1 6 5))).
Proof.
  exact (proj1 (X17_other_kinds_wrap_source
                  (mkConverter "x = a ? b : c" ex_opts)
                  (ConditionalExpr
                     (ScopeTraversalExpr (ex_node (ex_range 1 5 4 1 6 5)))
                     (ScopeTraversalExpr (ex_node (ex_range 1 9 8 1 10 9)))
                     (ScopeTraversalExpr (ex_node (ex_range 1 13 12 1 14 13)))
                     (mkNodeRanges (ex_range 1 5 4 1 14 13)
                                   (ex_range 1 5 4 1 6 5)))
                  ltac:(simpl; lia) ltac:(simpl; lia) ltac:(simpl; lia)
                  ltac:(vm_compute; discriminate))
               eq_refl).
Defined.

(** ** The node types of the two trees *)

Section NodeTypes.
Variable c : converter.

Lemma valueNode_insert (m : obj) k v :
  valueNode (VJsonObj m) -> valueNode v -> valueNode (VJsonObj (<[k := v]> m)).
Proof.
  intros Hm Hv. inversion Hm as [| | |? H|]; subst. constructor.
  intros k' v'. rewrite lookup_insert. case_decide; [by intros [= <-]|eauto].
Qed.

Lemma lineNode_insert (m : obj) k v :
  lineNode (VMap m) -> lineNode v -> lineNode (VMap (<[k := v]> m)).
Proof.
  intros Hm Hv. inversion Hm as [| |? H|]; subst. constructor.
  intros k' v'. rewrite lookup_insert. case_decide; [by intros [= <-]|eauto].
Qed.

Lemma valueNode_empty : valueNode (VJsonObj ∅).
Proof. constructor. intros k v. by rewrite lookup_empty. Qed.

Lemma lineNode_empty : lineNode (VMap ∅).
Proof. constructor. intros k v. by rewrite lookup_empty. Qed.

Lemma lineNode_annotateKey nr l : lineNode l -> lineNode (annotateKey nr l).
Proof. intros H. destruct l; simpl; try done. constructor. Qed.

Lemma lineNode_keyFields nr (m : obj) :
  lineNode (VMap m) -> lineNode (VMap (keyFields VInt nr m)).
Proof.
  intros H. unfold keyFields. repeat apply lineNode_insert;
    first [exact H | constructor].
Qed.

Lemma lineNode_bodyFields r (m : obj) :
  lineNode (VMap m) -> lineNode (VMap (bodyFields r m)).
Proof.
  intros H. unfold bodyFields. repeat apply lineNode_insert;
    first [exact H | constructor].
Qed.

Lemma valueNode_labelChain labels (m : obj) :
  valueNode (VJsonObj m) -> valueNode (VJsonObj (labelChain VJsonObj labels m)).
Proof.
  intros H. induction labels as [|label rest IH]; simpl; [done|].
  rewrite <- insert_empty. apply valueNode_insert; [apply valueNode_empty|done].
Qed.

Lemma lineNode_labelChain labels (m : obj) :
  lineNode (VMap m) -> lineNode (VMap (labelChain VMap labels m)).
Proof.
  intros H. induction labels as [|label rest IH]; simpl; [done|].
  rewrite <- insert_empty. apply lineNode_insert; [apply lineNode_empty|done].
Qed.

Lemma objectItems_nodes (items : list (Expression * Expression)) :
  Forall (fun kv =>
            forall v l, convertExpression c kv.2 = Ok (v, l) ->
                        valueNode v /\ lineNode l) items ->
  forall m0 l0 m l,
    foldM (fun '(m, l) '(KeyExpr, ValueExpr) =>
             key ← convertKey c KeyExpr;
             '(v, ln) ← convertExpression c ValueExpr;
             Ok (<[key := v]> m, <[key := ln]> l)) items (m0, l0) = Ok (m, l) ->
    valueNode (VJsonObj m0) -> lineNode (VMap l0) ->
    valueNode (VJsonObj m) /\ lineNode (VMap l).
Proof.
  induction 1 as [|[k e] items Hx _ IH]; intros m0 l0 m l H Hm Hl.
  - simpl in H. by injection H as <- <-.
  - simpl in H. apply bind_Ok in H as ([m1 l1] & H1 & H).
    ok_inv H1. subst. destruct (Hx _ _ Hm1) as [Hv Hln].
    eapply IH; [exact H| |].
    + by apply valueNode_insert.
    + by apply lineNode_insert.
Qed.

Lemma convertExpression_nodes (e : Expression) (v l : value) :
  convertExpression c e = Ok (v, l) -> valueNode v /\ lineNode l.
Proof.
  revert v l. induction e as
    [val r|parts r _|w r IH|es r IH|items r IH|w r _|r|cnd t f r _ _ _|t r _
    |kv vv coll val r _ _|r] using Expression_nested_ind;
    intros v l H; simpl in H;
    try solve [ok_inv H; subst; split; constructor].
  - by apply IH.
  - apply bind_Ok in H as (vs & Hc & H). injection H as <- <-.
    split; [|constructor]. constructor.
    apply collectM_Ok in Hc. rewrite Forall_forall in IH.
    apply Forall_forall. intros v Hv.
    destruct (proj1 (list_elem_of_lookup _ _) Hv) as [i Hi].
    destruct (Forall2_lookup_r _ _ _ _ _ Hc Hi) as (e & He & Hev).
    cbv beta in Hev.
    destruct (convertExpression c e) as [[v1 l1]| |] eqn:Hce; simpl in Hev;
      try discriminate. injection Hev as ->.
    apply (IH e (list_elem_of_lookup_2 _ _ _ He) _ _ Hce).
  - apply bind_Ok in H as ([m lm] & Hm & H). injection H as <- <-.
    eapply objectItems_nodes;
      [|exact Hm|apply valueNode_empty|apply lineNode_empty].
    eapply Forall_impl; [exact IH|]. by intros kv [_ ?].
Qed.

Lemma blocks_nodes (bs : list Block) :
  Forall (fun b => bodyNodes c (BlockBody b)) bs ->
  forall ms ls,
    Forall2 (blockConfigOf c) bs ms -> Forall2 (lineCfgOf c) bs ls ->
    Forall (fun m : obj => forall k v, m !! k = Some v -> valueNode v) ms
    /\ Forall (fun m : obj => forall k v, m !! k = Some v -> lineNode v) ls.
Proof.
  induction 1 as [|b bs Hb _ IH]; intros ms ls Hms Hls.
  - apply Forall2_nil_inv_l in Hms as ->. apply Forall2_nil_inv_l in Hls as ->.
    split; constructor.
  - apply Forall2_cons_inv_l in Hms as (m & ms' & (v & bl & Hv & ->) & Hms & ->).
    apply Forall2_cons_inv_l in Hls as (l & ls' & (v' & bl' & Hv' & ->) & Hls & ->).
    rewrite Hv in Hv'. injection Hv' as <- <-.
    destruct (IH _ _ Hms Hls) as [IH1 IH2]. destruct (Hb _ _ Hv) as [Hvn Hln].
    split; constructor; try done.
    + pose proof (valueNode_labelChain (Labels b) v Hvn) as Hc.
      by inversion Hc.
    + pose proof (lineNode_labelChain (Labels b) _
                    (lineNode_keyFields (TypeRange b) bl Hln)) as Hc.
      by inversion Hc.
Qed.

Lemma blocksState_nodes (blocks : list Block) (cfg lcfg : obj) :
  Forall (fun b => bodyNodes c (BlockBody b)) blocks ->
  blocksState c blocks cfg lcfg ->
  valueNode (VJsonObj cfg) /\ lineNode (VMap lcfg).
Proof.
  intros Hall Hst.
  assert (forall ty, exists ms ls,
             (Forall (fun m : obj => forall k v, m !! k = Some v -> valueNode v) ms
              /\ Forall (fun m : obj => forall k v, m !! k = Some v -> lineNode v) ls)
             /\ cfg !! ty = sliceEntry VObjSlice ms
             /\ lcfg !! ty = sliceEntry VLineSlice ls) as Hty.
  { intros ty. destruct (Hst ty) as (ms & ls & Hms & Hls & Hc & Hl).
    exists ms, ls. split; [|done].
    eapply blocks_nodes; [|exact Hms|exact Hls].
    apply Forall_forall. intros b Hin. apply list_elem_of_filter in Hin as [_ Hin].
    rewrite Forall_forall in Hall. by apply Hall. }
  split; constructor; intros k v Hk;
    destruct (Hty k) as (ms & ls & [H1 H2] & Hc & Hl).
  - rewrite Hc in Hk. destruct ms; [discriminate|]. injection Hk as <-.
    by constructor.
  - rewrite Hl in Hk. destruct ls; [discriminate|]. injection Hk as <-.
    by constructor.
Qed.

Lemma attributes_nodes (attributes : list (string * Attribute))
      (acc acc' : obj * obj) :
  foldM (convertAttribute c) attributes acc = Ok acc' ->
  valueNode (VJsonObj acc.1) /\ lineNode (VMap acc.2) ->
  valueNode (VJsonObj acc'.1) /\ lineNode (VMap acc'.2).
Proof.
  revert acc; induction attributes as [|[key a] attributes IH];
    intros [cfg lcfg] H [Hv Hl]; simpl in H.
  - by injection H as <-.
  - apply bind_Ok in H as ([cfg1 lcfg1] & Hstep & H).
    apply (IH _ H). ok_inv Hstep. apply wrapErr_Ok in Hm. subst. simpl in *.
    destruct (convertExpression_nodes _ _ _ Hm) as [Hvn Hln].
    split; [by apply valueNode_insert|].
    by apply lineNode_insert, lineNode_annotateKey.
Qed.

Lemma convertBody_nodes (body : Body) : bodyNodes c body.
Proof.
  induction body as [attributes blocks srcRange IH] using Body_nested_ind.
  intros cfg lcfg H. rewrite convertBody_eq in H.
  apply bind_Ok in H as ([cfg1 lcfg1] & Hblocks & H).
  apply bind_Ok in H as ([cfg2 lcfg2] & Hattrs & H). injection H as <- <-.
  destruct (attributes_nodes _ _ _ Hattrs) as [Hv Hl].
  { simpl. eapply blocksState_nodes; [exact IH|].
    exact (blocks_loop c _ _ Hblocks). }
  split; [exact Hv|]. by apply lineNode_bodyFields.
Qed.
End NodeTypes.

(** X18.  The two trees of a converted document are built from disjoint
    node types: the value tree from scalars, strings, sequences of values,
    objects and sequences of block objects, and never an integer or a
    positional record; the line tree from integers, positional records,
    line maps and sequences of line maps. *)
Theorem X18_tree_node_types (file : hclFile) (opts : Options) (cfg lcfg : obj) :
  ConvertFile file opts = Ok (cfg, lcfg) ->
  valueNode (VJsonObj cfg) /\ lineNode (VMap lcfg).
Proof.
  unfold ConvertFile. destruct (FileBody file) as [body|]; [|discriminate].
  intros H. apply wrapErr_Ok in H. exact (convertBody_nodes _ body _ _ H).
Qed.

(** The document [db 'mysql' 'primary' { x = 1 }]. *)
Lemma X18_tree_node_types_witness :
  exists cfg lcfg,
    ConvertFile (mkFile (SyntaxBody ex_db_body) ex_db_src) ex_opts = Ok (cfg, lcfg)
    /\ valueNode (VJsonObj cfg) /\ lineNode (VMap lcfg).
Proof.
  eexists _, _. split; [vm_compute; reflexivity|].
  apply (X18_tree_node_types (mkFile (SyntaxBody ex_db_body) ex_db_src) ex_opts).
  reflexivity.
Defined.

(** ** The options *)

(** X19.  The options have no effect: a document converts to the same
    result, and [File] returns the same, whatever the options are. *)
Theorem X19_options_are_ignored (marshal : value -> result string)
    (file : hclFile) (opts1 opts2 : Options) :
  ConvertFile file opts1 = ConvertFile file opts2
  /\ File marshal file opts1 = File marshal file opts2.
Proof.
  assert (ConvertFile file opts1 = ConvertFile file opts2) as H.
  { unfold ConvertFile. destruct (FileBody file); reflexivity. }
  split; [exact H|]. unfold File. by rewrite H.
Qed.

(** ** The first failure decides *)

Lemma collectM_app_Ok {A B} (f : A -> result B) (pre rest : list A) :
  Forall (fun x => exists y, f x = Ok y) pre ->
  exists ys, collectM f (pre ++ rest)
             = zs ← collectM f rest; Ok (ys ++ zs).
Proof.
  induction 1 as [|x pre [y Hy] _ [ys IH]].
  - exists []. simpl. by destruct (collectM f rest).
  - exists (y :: ys). simpl. rewrite Hy, IH. simpl.
    by destruct (collectM f rest).
Qed.

(** X20.  The conversion of a tuple stops at its first element that does
    not convert: when the elements before it convert, the tuple fails with
    that element's error, or panics with that element's panic, whatever
    the elements after it are. *)
Theorem X20_tuple_first_failure (c : converter)
    (before after : list Expression) (e : Expression) (r : NodeRanges) :
  Forall (fun e' => exists v l, convertExpression c e' = Ok (v, l)) before ->
  (forall err, convertExpression c e = Err err ->
               convertExpression c (TupleConsExpr (before ++ e :: after) r)
               = Err err)
  /\ (forall p, convertExpression c e = Panic p ->
                convertExpression c (TupleConsExpr (before ++ e :: after) r)
                = Panic p).
Proof.
  intros Hpre.
  destruct (collectM_app_Ok
              (fun ex => '(elem, _) ← convertExpression c ex; Ok elem)
              before (e :: after)) as [ys Hys].
  { eapply Forall_impl; [exact Hpre|]. intros e' (v & l & He).
    exists v. by rewrite He. }
  split; intros x He; simpl; rewrite Hys; simpl; by rewrite He.
Qed.

(** The tuple [[1, t, n]] where [t] is the template sequence [${null}],
    which fails with an error, and [n] would panic. *)
Lemma X20_tuple_first_failure_witness :
  convertExpression (mkConverter "x = [1, t, n]" ex_opts)
    (TupleConsExpr
       ([LiteralValueExpr (CtyNumber 1) (ex_node (ex_range 1 6 5 1 7 6))]
        ++ ex_null_template (ex_range 1 9 8 1 10 9)
        :: [OtherExpr (ex_node (ex_range 1 12 11 1 99 98))])
       (mkNodeRanges (ex_range 1 5 4 1 14 13) (ex_range 1 5 4 1 6 5)))
  = Err ErrTemplateDiags.
Proof.
  apply (proj1 (X20_tuple_first_failure (mkConverter "x = [1, t, n]" ex_opts)
                  [LiteralValueExpr (CtyNumber 1) (ex_node (ex_range 1 6 5 1 7 6))]
                  [OtherExpr (ex_node (ex_range 1 12 11 1 99 98))]
                  (ex_null_template (ex_range 1 9 8 1 10 9))
                  (mkNodeRanges (ex_range 1 5 4 1 14 13) (ex_range 1 5 4 1 6 5))
                  ltac:(repeat constructor; by eexists _, _))).
  reflexivity.
Defined.
